(** * Inclusive assistant demo: scoring formulas, recommendation rule,
      board relay and the finish endpoint

    A shallow embedding of
    - [app/services/indices.py]          (module [Indices]),
    - [app/services/recommendations.py]  (module [Recommendations]),
    - the websocket handler [board_ws] of [app/main.py]   (module [Board]),
    - the endpoint [finish_block] of [app/main.py]        (module [Pipeline]),
    followed by the properties of each.

    Python floats are IEEE binary64 numbers; they are embedded as Rocq's
    primitive floats, so every arithmetic operation rounds exactly as the
    interpreter does. *)

From Stdlib Require Import Floats ZArith.
From stdpp Require Import gmap strings list.

#[local] Set Warnings "-inexact-float,-register-all".
#[local] Open Scope float_scope.

(** ** Python built-ins on floats *)

Module Py.

(** [max(a, b)]: the first argument is kept unless the second compares
    strictly greater. *)
Definition max (a b : float) : float := if a <? b then b else a.

(** [min(a, b)]: the first argument is kept unless the second compares
    strictly smaller. *)
Definition min (a b : float) : float := if b <? a then b else a.

End Py.

(** ** [app/services/indices.py] *)

Module Indices.

Definition calc_overload_index
    (accuracy norm_time skip_rate sensory_mismatch : float) : float :=
  Py.min 1.0 (Py.max 0.0
    (0.4 * (1 - accuracy) + 0.3 * norm_time + 0.2 * skip_rate
     + 0.1 * sensory_mismatch)).

Definition calc_readiness_index
    (accuracy norm_time fatigue_proxy : float) : float :=
  Py.min 1.0 (Py.max 0.0
    (0.5 * accuracy + 0.3 * (1 - norm_time) + 0.2 * (1 - fatigue_proxy))).

(** The clamp of the specification, [clamp01(x) = min(1, max(0, x))],
    written from its wording and compared with the code below. *)
Definition clamp01 (x : float) : float := Py.min 1 (Py.max 0 x).

(** Membership in the closed unit interval. *)
Definition in_unit (x : float) : bool := (0 <=? x) && (x <=? 1).

End Indices.

(** ** [app/services/recommendations.py] *)

Module Recommendations.

(** The dictionary [{"action": ..., "text": ...}] the function returns. *)
Record recommendation := Recommendation { action : string; text : string }.

(** "Снизить сложность" is Russian for "reduce difficulty". *)
Definition reduce_difficulty : recommendation :=
  {| action := "Снизить сложность";
     text := "Высокая перегрузка: снизьте сложность" |}.

(** "Повысить сложность": "increase difficulty". *)
Definition increase_difficulty : recommendation :=
  {| action := "Повысить сложность";
     text := "Готовность высокая: можно усложнить задания" |}.

(** "Оставить как есть": "leave as is", the maintain action. *)
Definition maintain : recommendation :=
  {| action := "Оставить как есть"; text := "Нагрузка в норме" |}.

Definition make_recommendation (overload_index readiness_index : float)
    : recommendation :=
  if 0.7 <? overload_index then reduce_difficulty
  else if 0.7 <? readiness_index then increase_difficulty
  else maintain.

End Recommendations.

(** ** The board relay: [board_ws] of [app/main.py]

    The handler is a coroutine, one per connection. Its code between two
    [receive_json] calls is embedded as one transition of the relay: the
    connection prologue (lines 35-45), one turn of the receive loop
    (lines 49-56) and the [WebSocketDisconnect] handler (line 58). A
    transition runs to its end before the next one starts, and every
    [send_json] in it completes; what other handlers could do while one
    of them is suspended inside a [send_json] is not part of this
    embedding, and neither is a [send_json] that raises: both are in the
    module [Relay] further down, where the handler is embedded from one
    [await] to the next and where the replay and the broadcast are
    specified. A transition returns [None] where the Python code would
    raise [KeyError] or [ValueError]. *)

Module Board.

(** JSON values as [json.loads] produces them. *)
Inductive json :=
| JNull
| JBool (b : bool)
| JInt (n : Z)
| JFloat (x : float)
| JString (s : string)
| JArray (items : list json)
| JObject (fields : list (string * json)).

(** The dictionary one [receive_json] returns: a drawing action. *)
Abbreviation action := (gmap string json).

(** A [WebSocket] object. Starlette compares connections by identity,
    so an object is represented by its identity. *)
Abbreviation websocket := nat.

(** The two module-level dictionaries, and the messages put on the
    wire by [send_json], oldest first, each with its recipient. *)
Record hub := Hub {
  board_connections : gmap string (list websocket);
  board_states : gmap string (list action);
  wire : list (websocket * action)
}.

Definition empty_hub : hub := Hub ∅ ∅ [].

(** [data.get("type") == "clear"] *)
Definition is_clear (data : action) : bool :=
  match data !! "type" with
  | Some (JString s) => bool_decide (s = "clear")
  | _ => false
  end.

(** [await conn.send_json(data)], for a send that completes. *)
Definition send_json (conn : websocket) (data : action) (h : hub) : hub :=
  Hub (board_connections h) (board_states h) (wire h ++ [(conn, data)]).

(** Lines 37-45, when the sends of the replay complete one after the
    other and no other handler runs before the last one has: create both
    entries of a new board, register the connection, replay the board to
    it. *)
Definition connect (lesson_block_id : string) (ws : websocket) (h : hub)
    : option hub :=
  let h1 :=
    match board_connections h !! lesson_block_id with
    | None => Hub (<[lesson_block_id := []]> (board_connections h))
                  (<[lesson_block_id := []]> (board_states h))
                  (wire h)
    | Some _ => h
    end in
  conns ← board_connections h1 !! lesson_block_id;
  let h2 := Hub (<[lesson_block_id := conns ++ [ws]]> (board_connections h1))
                (board_states h1) (wire h1) in
  history ← board_states h2 !! lesson_block_id;
  Some (foldl (λ h' a, send_json ws a h') h2 history).

(** Lines 54-56, likewise: the loop over the board's connections. *)
Definition broadcast (sender : websocket) (data : action)
    (conns : list websocket) (h : hub) : hub :=
  foldl (λ h' conn, if decide (conn ≠ sender) then send_json conn data h'
                    else h') h conns.

(** Lines 50-56: one received action. *)
Definition receive (lesson_block_id : string) (ws : websocket)
    (data : action) (h : hub) : option hub :=
  states ←
    (if is_clear data
     then Some (<[lesson_block_id := []]> (board_states h))
     else history ← board_states h !! lesson_block_id;
          Some (<[lesson_block_id := history ++ [data]]> (board_states h)));
  conns ← board_connections h !! lesson_block_id;
  Some (broadcast ws data conns (Hub (board_connections h) states (wire h))).

(** [list.remove(x)]: drops the first occurrence, [ValueError] if there
    is none. *)
Fixpoint list_remove (x : websocket) (l : list websocket)
    : option (list websocket) :=
  match l with
  | [] => None
  | y :: l' => if decide (y = x) then Some l'
               else cons y <$> list_remove x l'
  end.

(** Line 58. *)
Definition disconnect (lesson_block_id : string) (ws : websocket) (h : hub)
    : option hub :=
  conns ← board_connections h !! lesson_block_id;
  conns' ← list_remove ws conns;
  Some (Hub (<[lesson_block_id := conns']> (board_connections h))
            (board_states h) (wire h)).

(** *** Runs of the relay *)

Inductive event :=
| Connect (lesson_block_id : string) (ws : websocket)
| Receive (lesson_block_id : string) (ws : websocket) (data : action)
| Disconnect (lesson_block_id : string) (ws : websocket).

(** The connections of a board ([[]] for a board that does not exist). *)
Definition participants (lesson_block_id : string) (h : hub)
    : list websocket :=
  default [] (board_connections h !! lesson_block_id).

(** The replayable history of a board. *)
Definition history (lesson_block_id : string) (h : hub) : list action :=
  default [] (board_states h !! lesson_block_id).

(** A websocket object that no board holds. *)
Definition unregistered (ws : websocket) (h : hub) : Prop :=
  map_Forall (λ _ conns, ws ∉ conns) (board_connections h).

#[global] Instance unregistered_dec ws h : Decision (unregistered ws h).
Proof. unfold unregistered. apply _. Defined.

(** The control flow of the handler: it is started with a websocket
    object of its own, which no board holds yet, and it receives and
    disconnects only for the board it has registered with. *)
Definition step (e : event) (h : hub) : option hub :=
  match e with
  | Connect sid ws =>
      if decide (unregistered ws h) then connect sid ws h else None
  | Receive sid ws data =>
      if decide (ws ∈ participants sid h) then receive sid ws data h
      else None
  | Disconnect sid ws =>
      if decide (ws ∈ participants sid h) then disconnect sid ws h
      else None
  end.

Fixpoint run (es : list event) (h : hub) : option hub :=
  match es with
  | [] => Some h
  | e :: es' => h' ← step e h; run es' h'
  end.

(** What a websocket has been sent, oldest first. *)
Definition inbox (ws : websocket) (h : hub) : list action :=
  snd <$> filter (λ m, m.1 = ws) (wire h).

(** The history of a board as the specification describes it: the
    actions received for the board since it was last cleared, in the
    order of their arrival, starting from [acc]. *)
Fixpoint accumulated (lesson_block_id : string) (es : list event)
    (acc : list action) : list action :=
  match es with
  | [] => acc
  | Receive sid _ data :: es' =>
      if decide (sid = lesson_block_id)
      then accumulated lesson_block_id es'
             (if is_clear data then [] else acc ++ [data])
      else accumulated lesson_block_id es' acc
  | _ :: es' => accumulated lesson_block_id es' acc
  end.

(** What holds of the relay between any two transitions: the two
    dictionaries have the same keys, no connection is registered twice
    for a board, and no history holds a clear action. *)
Record consistent (h : hub) : Prop := {
  same_boards : dom (board_connections h) = dom (board_states h);
  registered_once :
    ∀ sid conns, board_connections h !! sid = Some conns → NoDup conns;
  no_clear_kept :
    ∀ sid actions, board_states h !! sid = Some actions →
      Forall (λ a, is_clear a = false) actions
}.

(** *** Sample actions and runs *)

Definition stroke_start : action :=
  {[ "type" := JString "start"; "x" := JInt 10; "y" := JInt 20;
     "tool" := JString "pen" ]}.

Definition stroke_draw : action :=
  {[ "type" := JString "draw"; "x" := JInt 11; "y" := JInt 22 ]}.

(** An action of a kind the relay does not know. *)
Definition zoom : action :=
  {[ "type" := JString "zoom"; "factor" := JFloat 1.5 ]}.

Definition clear : action := {[ "type" := JString "clear" ]}.

(** Participant 1 opens board "S" and draws two actions. *)
Definition two_strokes : list event :=
  [Connect "S" 1; Receive "S" 1 stroke_start; Receive "S" 1 stroke_draw].

Definition hub_two_strokes : hub :=
  Eval vm_compute in default empty_hub (run two_strokes empty_hub).

(** Participant 2 then joins. *)
Definition hub_joined : hub :=
  Eval vm_compute in
    default empty_hub (step (Connect "S" 2) hub_two_strokes).

(** Participants 1, 2 and 3 on board "S", participant 4 on board "T",
    one action on each board. *)
Definition busy : list event :=
  [Connect "S" 1; Connect "S" 2; Connect "T" 4; Connect "S" 3;
   Receive "S" 2 stroke_start; Receive "T" 4 stroke_draw].

Definition hub_busy : hub :=
  Eval vm_compute in default empty_hub (run busy empty_hub).

(** Everybody has left board "S" of [hub_two_strokes]. *)
Definition hub_deserted : hub :=
  Eval vm_compute in
    default empty_hub (run (two_strokes ++ [Disconnect "S" 1]) empty_hub).

End Board.

(** ** The finish endpoint: [finish_block] of [app/main.py]

    The endpoint runs against a SQLAlchemy session. The embedding keeps
    the committed tables, the writes the session has pending, and the
    sequence of stages the request went through. *)

Module Pipeline.
Import Indices Recommendations.

Abbreviation uuid := N.
Abbreviation datetime := Z.

(** *** [app/models.py]

    A table with a one-column primary key that the endpoint looks rows up
    by is a map from that key; [task_events] is the list of its rows.
    Every other column is nullable. *)

Record NeuroProfile := {
  processing_speed : option float;
  working_memory : option float;
  sensory_sensitivity : option float;
  switch_cost : option float;
  stimulation_need : option float;
  fatigue_rate : option float;
  predictability_need : option float;
  profile_source : option string
}.

Record LessonBlock := {
  student_id : option uuid;
  started_at : option datetime;
  finished_at : option datetime
}.

Record TaskEvent := {
  id : uuid;
  ev_student_id : option uuid;
  task_id : option uuid;
  lesson_block_id : option uuid;
  event_type : option string;
  is_correct : option bool
}.

Record BlockIndex := {
  overload_index : option float;
  readiness_index : option float
}.

Record database := {
  lesson_blocks : gmap uuid LessonBlock;
  task_events : list TaskEvent;
  neuro_profiles : gmap uuid NeuroProfile;
  block_indices : gmap uuid BlockIndex
}.

(** *** The session *)

(** What a request can raise. *)
Inductive error :=
| HTTPException (status_code : Z) (detail : string)
| Raised (exception : string).

(** The calls of [finish_block], in the names of the source. *)
Inductive stage :=
| QueryLessonBlock
| QueryTaskEvents
| ComputeBlockMetrics
| QueryNeuroProfile
| NormalizeTime
| CalcOverloadIndex
| CalcReadinessIndex
| Commit
| MakeRecommendation.

#[global] Instance stage_eq_dec : EqDecision stage.
Proof. solve_decision. Defined.

(** A write the session holds until [commit]. *)
Inductive write :=
| SetFinishedAt (block_id : uuid) (t : datetime)
| AddBlockIndex (block_id : uuid) (idx : BlockIndex).

Record session := {
  store : database;
  pending : list write;
  trace : list stage
}.

Definition M (A : Type) : Type := session → (error + A) * session.

Definition ret {A} (a : A) : M A := λ s, (inr a, s).

Definition bind {A B} (m : M A) (k : A → M B) : M B :=
  λ s, match m s with
       | (inl e, s') => (inl e, s')
       | (inr a, s') => k a s'
       end.

Definition raise {A} (e : error) : M A := λ s, (inl e, s).

#[global] Instance M_bind : MBind M := λ A B k m, bind m k.

(** Records that a stage has been entered. *)
Definition enter (st : stage) : M unit :=
  λ s, (inr tt, {| store := store s; pending := pending s;
                   trace := trace s ++ [st] |}).

(** A call that returns or raises. *)
Definition call {A} (st : stage) (r : error + A) : M A :=
  enter st;;
  match r with inl e => raise e | inr a => ret a end.

(** A query sees the committed tables (the endpoint queries before it
    writes, so nothing is pending at any of its queries). *)
Definition query {A} (q : database → A) : M A :=
  λ s, (inr (q (store s)), s).

Definition read {A} (st : stage) (q : database → A) : M A :=
  enter st;; query q.

Definition add_pending (w : write) : M unit :=
  λ s, (inr tt, {| store := store s; pending := pending s ++ [w];
                   trace := trace s |}).

(** One write inside a transaction; [None] is a violated primary key. *)
Definition apply_write (db : database) (w : write) : option database :=
  match w with
  | SetFinishedAt block_id t =>
      Some {| lesson_blocks :=
                alter (λ b, {| student_id := student_id b;
                               started_at := started_at b;
                               finished_at := Some t |})
                      block_id (lesson_blocks db);
              task_events := task_events db;
              neuro_profiles := neuro_profiles db;
              block_indices := block_indices db |}
  | AddBlockIndex block_id idx =>
      match block_indices db !! block_id with
      | Some _ => None
      | None =>
          Some {| lesson_blocks := lesson_blocks db;
                  task_events := task_events db;
                  neuro_profiles := neuro_profiles db;
                  block_indices := <[block_id := idx]> (block_indices db) |}
      end
  end.

Fixpoint apply_writes (db : database) (ws : list write) : option database :=
  match ws with
  | [] => Some db
  | w :: ws' => db' ← apply_write db w; apply_writes db' ws'
  end.

(** The transaction of [commit]: the pending writes take effect
    together, or nothing does and [IntegrityError] is raised. *)
Definition flush : M unit :=
  λ s, match apply_writes (store s) (pending s) with
       | Some db' =>
           (inr tt, {| store := db'; pending := []; trace := trace s |})
       | None =>
           (inl (Raised "IntegrityError"),
            {| store := store s; pending := []; trace := trace s |})
       end.

(** [db.commit()] *)
Definition commit : M unit := enter Commit;; flush.

(** *** The endpoint *)

(** The dictionary [compute_block_metrics] returns. *)
Record metrics := { accuracy : float; skip_rate : float; duration : float }.

(** The JSON body of the response. *)
Record response := {
  resp_overload_index : float;
  resp_readiness_index : float;
  resp_recommendation : recommendation
}.

(** [.filter(TaskEvent.lesson_block_id == block_id).all()] *)
Definition events_of (block_id : uuid) (db : database) : list TaskEvent :=
  filter (λ e, lesson_block_id e = Some block_id) (task_events db).

(** [.filter(NeuroProfile.student_id == block.student_id).first()] *)
Definition profile_of (student : option uuid) (db : database)
    : option NeuroProfile :=
  s ← student; neuro_profiles db !! s.

Section Endpoint.

(** [services/metrics.py] and [services/profiling.py] are not among
    the sources: the two functions [main.py] imports from them are
    parameters, and either may raise. *)
Variable compute_block_metrics : list TaskEvent → error + metrics.
Variable normalize_time : float → option float → error + float.

Definition finish_block (block_id : uuid) (now : datetime) : M response :=
  block ← read QueryLessonBlock (λ db, lesson_blocks db !! block_id);
  match block with
  | None => raise (HTTPException 404 "lesson block not found")
  | Some block =>
  events ← read QueryTaskEvents (events_of block_id);
  match events with
  | [] => raise (HTTPException 400 "no events")
  | _ :: _ =>
  metrics ← call ComputeBlockMetrics (compute_block_metrics events);
  profile ← read QueryNeuroProfile (profile_of (student_id block));
  match profile with
  | None => raise (HTTPException 400 "neuro profile not found")
  | Some profile =>
  norm_time ← call NormalizeTime
    (normalize_time (duration metrics) (processing_speed profile));
  sensory_mismatch ←
    match sensory_sensitivity profile with
    | Some s => ret (abs (0.5 - (1 - s)))
    | None => raise (Raised "TypeError")
    end;
  let fatigue_proxy := Py.min (duration metrics / 1800) 1.0 in
  overload ← call CalcOverloadIndex
    (inr (calc_overload_index (accuracy metrics) norm_time
            (skip_rate metrics) sensory_mismatch));
  readiness ← call CalcReadinessIndex
    (inr (calc_readiness_index (accuracy metrics) norm_time
            fatigue_proxy));
  let idx := {| overload_index := Some overload;
                readiness_index := Some readiness |} in
  add_pending (SetFinishedAt block_id now);;
  add_pending (AddBlockIndex block_id idx);;
  commit;;
  recommendation ← call MakeRecommendation
    (inr (make_recommendation overload readiness));
  ret {| resp_overload_index := overload;
         resp_readiness_index := readiness;
         resp_recommendation := recommendation |}
  end end end.

(** One request: [get_db] opens a session on the committed tables
    and closes it afterwards, which drops whatever is still pending. *)
Definition finish_request (block_id : uuid) (now : datetime)
    (db : database) : (error + response) * database * list stage :=
  let '(r, s) := finish_block block_id now
                   {| store := db; pending := []; trace := [] |} in
  (r, store s, trace s).

End Endpoint.

(** The stages of a request that succeeds, in the order of the source. *)
Definition stages_of_finish : list stage :=
  [QueryLessonBlock; QueryTaskEvents; ComputeBlockMetrics; QueryNeuroProfile;
   NormalizeTime; CalcOverloadIndex; CalcReadinessIndex; Commit;
   MakeRecommendation].

(** The row of [lesson_blocks] after [block.finished_at = now]. *)
Definition finished (now : datetime) (b : LessonBlock) : LessonBlock :=
  {| student_id := student_id b; started_at := started_at b;
     finished_at := Some now |}.

(** *** Instances of the two imported functions, for concrete runs *)

Definition float_of_nat (n : nat) : float :=
  of_uint63 (Uint63.of_Z (Z.of_nat n)).

(** Modelled from the spec: [compute_block_metrics] of
    [services/metrics.py], which is not among the sources. Accuracy is
    the share of correct answers among the answers (0 when there is no
    answer), the skip rate is the share of skips among all events, the
    duration is the time from the first to the last event, not below 0;
    an empty collection is an error. The rows of [task_events] carry no
    timestamp, so the time between the first and the last event is an
    argument of the model. *)
Definition compute_block_metrics_model (span : float)
    (events : list TaskEvent) : error + metrics :=
  match events with
  | [] => inl (Raised "InvalidState")
  | _ :: _ =>
      let answers := filter (λ e, event_type e = Some "answer") events in
      let correct := filter (λ e, is_correct e = Some true) answers in
      let skips := filter (λ e, event_type e = Some "skip") events in
      inr {| accuracy :=
               match answers with
               | [] => 0
               | _ :: _ => float_of_nat (length correct)
                           / float_of_nat (length answers)
               end;
             skip_rate := float_of_nat (length skips)
                          / float_of_nat (length events);
             duration := Py.max 0 span |}
  end.

(** Modelled from the spec: [normalize_time] of [services/profiling.py],
    which is not among the sources. The duration is divided by the
    processing speed and clamped into the unit interval; a processing
    speed that is missing, zero or negative is an error. The scale,
    which the spec leaves open, is taken to be 1800 seconds. *)
Definition normalize_time_model (duration : float)
    (processing_speed : option float) : error + float :=
  match processing_speed with
  | None => inl (Raised "InvalidState")
  | Some speed =>
      if 0 <? speed
      then inr (Py.min 1 (Py.max 0 (duration / speed / 1800)))
      else inl (Raised "InvalidState")
  end.

(** *** Sample tables: the end-to-end scenario of the specification

    Student 1 with processing speed 1.0 and sensory sensitivity 0.5;
    block 10 with four answers, three of them correct, and one skip,
    600 seconds apart. *)

Definition sample_profile : NeuroProfile :=
  {| processing_speed := Some 1.0; working_memory := None;
     sensory_sensitivity := Some 0.5; switch_cost := None;
     stimulation_need := None; fatigue_rate := None;
     predictability_need := None; profile_source := Some "test" |}.

Definition sample_block : LessonBlock :=
  {| student_id := Some 1%N; started_at := Some 1000%Z;
     finished_at := None |}.

Definition sample_event (n : uuid) (kind : string) (correct : option bool)
    : TaskEvent :=
  {| id := n; ev_student_id := Some 1%N; task_id := Some 7%N;
     lesson_block_id := Some 10%N; event_type := Some kind;
     is_correct := correct |}.

Definition sample_events : list TaskEvent :=
  [sample_event 1 "answer" (Some true);
   sample_event 2 "answer" (Some true);
   sample_event 3 "skip" None;
   sample_event 4 "answer" (Some false);
   sample_event 5 "answer" (Some true)].

Definition sample_db : database :=
  {| lesson_blocks := {[ 10%N := sample_block ]};
     task_events := sample_events;
     neuro_profiles := {[ 1%N := sample_profile ]};
     block_indices := ∅ |}.

(** The same tables without the student's profile. *)
Definition sample_db_no_profile : database :=
  {| lesson_blocks := lesson_blocks sample_db;
     task_events := task_events sample_db;
     neuro_profiles := ∅;
     block_indices := ∅ |}.

(** The same tables without any event. *)
Definition sample_db_no_events : database :=
  {| lesson_blocks := lesson_blocks sample_db;
     task_events := [];
     neuro_profiles := neuro_profiles sample_db;
     block_indices := ∅ |}.

(** The finish endpoint with the two modelled functions. *)
Definition sample_finish (block_id : uuid) (now : datetime) (db : database)
    : (error + response) * database * list stage :=
  finish_request (compute_block_metrics_model 600) normalize_time_model
    block_id now db.

End Pipeline.

(** ** The endpoints that fill the tables: [create_event] and
    [start_block] of [app/main.py]

    Each of them adds one row and commits. The tables are created from
    [models.py] (line 18 of [main.py]) with the PostgreSQL column types
    it imports, so the server rejects a second row with a primary key
    that is taken and a [lesson_blocks] row whose student is not a row
    of [students]; either makes [commit] raise [IntegrityError] and
    leaves the tables as they were. *)

Module Intake.
Import Pipeline.

(** Modelled from the spec: [EventCreate] of [app/schemas.py], which is
    not among the sources. It carries the five fields [create_event]
    reads, which are those of a task event without its [id]. *)
Record EventCreate := {
  ec_student_id : option uuid;
  ec_task_id : option uuid;
  ec_lesson_block_id : option uuid;
  ec_event_type : option string;
  ec_is_correct : option bool
}.

(** The row [create_event] builds; [new_id] is the [uuid4] drawn for the
    column default. *)
Definition event_row (new_id : uuid) (data : EventCreate) : TaskEvent :=
  {| id := new_id;
     ev_student_id := ec_student_id data;
     task_id := ec_task_id data;
     lesson_block_id := ec_lesson_block_id data;
     event_type := ec_event_type data;
     is_correct := ec_is_correct data |}.

(** Lines 63-74. The response is the dictionary [{"status": "ok"}],
    given by its one value. *)
Definition create_event (new_id : uuid) (data : EventCreate) (db : database)
    : (error + string) * database :=
  if decide (new_id ∈ id <$> task_events db)
  then (inl (Raised "IntegrityError"), db)
  else (inr "ok",
        {| lesson_blocks := lesson_blocks db;
           task_events := task_events db ++ [event_row new_id data];
           neuro_profiles := neuro_profiles db;
           block_indices := block_indices db |}).

(** Lines 76-82. [students] is the set of keys of the [students] table,
    which no endpoint writes; [new_id] and [now] are the [uuid4] and the
    [utcnow] drawn for the column defaults. The response is the
    dictionary [{"lesson_block_id": ...}], given by its one value. *)
Definition start_block (students : gset uuid) (new_id : uuid) (now : datetime)
    (student : uuid) (db : database) : (error + uuid) * database :=
  if decide (student ∈ students)
  then match lesson_blocks db !! new_id with
       | Some _ => (inl (Raised "IntegrityError"), db)
       | None =>
           (inr new_id,
            {| lesson_blocks :=
                 <[new_id := {| student_id := Some student;
                                started_at := Some now;
                                finished_at := None |}]> (lesson_blocks db);
               task_events := task_events db;
               neuro_profiles := neuro_profiles db;
               block_indices := block_indices db |})
       end
  else (inl (Raised "IntegrityError"), db).

(** *** Sample requests *)

(** A correct answer of student 1 to task 7 in block 10. *)
Definition sample_answer : EventCreate :=
  {| ec_student_id := Some 1%N; ec_task_id := Some 7%N;
     ec_lesson_block_id := Some 10%N; ec_event_type := Some "answer";
     ec_is_correct := Some true |}.

(** A skip recorded for block 99, which no table knows. *)
Definition sample_orphan : EventCreate :=
  {| ec_student_id := Some 1%N; ec_task_id := Some 7%N;
     ec_lesson_block_id := Some 99%N; ec_event_type := Some "skip";
     ec_is_correct := None |}.

(** The sample tables after block 10 has been finished at time 2000. *)
Definition sample_db_finished : database :=
  Eval vm_compute in (sample_finish 10 2000 sample_db).1.2.

(** The sample profile with its sensory sensitivity missing. *)
Definition sample_db_null_sensitivity : database :=
  {| lesson_blocks := lesson_blocks sample_db;
     task_events := task_events sample_db;
     neuro_profiles :=
       {[ 1%N := {| processing_speed := Some 1.0; working_memory := None;
                    sensory_sensitivity := None; switch_cost := None;
                    stimulation_need := None; fatigue_rate := None;
                    predictability_need := None;
                    profile_source := Some "test" |} ]};
     block_indices := ∅ |}.

(** The sample tables with the events of a second block and the profile
    of a second student added. *)
Definition sample_db_crowded : database :=
  {| lesson_blocks :=
       <[ 11%N := {| student_id := Some 2%N; started_at := Some 1500%Z;
                     finished_at := None |} ]> (lesson_blocks sample_db);
     task_events :=
       {| id := 20; ev_student_id := Some 2%N; task_id := Some 7%N;
          lesson_block_id := Some 11%N; event_type := Some "skip";
          is_correct := None |} :: task_events sample_db;
     neuro_profiles :=
       <[ 2%N := {| processing_speed := Some 2.0; working_memory := None;
                    sensory_sensitivity := Some 0.9; switch_cost := None;
                    stimulation_need := None; fatigue_rate := None;
                    predictability_need := None;
                    profile_source := None |} ]> (neuro_profiles sample_db);
     block_indices :=
       {[ 11%N := {| overload_index := Some 0.5;
                     readiness_index := Some 0.5 |} ]} |}.

End Intake.

(** ** What the participants of a board are sent, read off a run *)

Module Delivery.
Import Board.

(** The actions the relay has received in a run, oldest first. *)
Fixpoint received (es : list event) : list action :=
  match es with
  | [] => []
  | Receive _ _ data :: es' => data :: received es'
  | _ :: es' => received es'
  end.

(** The actions received in a run for board [sid] from participants
    other than [ws], oldest first. *)
Fixpoint relayed (sid : string) (ws : websocket) (es : list event)
    : list action :=
  match es with
  | [] => []
  | Receive sid' sender data :: es' =>
      if decide (sid' = sid ∧ sender ≠ ws)
      then data :: relayed sid ws es'
      else relayed sid ws es'
  | _ :: es' => relayed sid ws es'
  end.


Definition disconnecting (es : list event) : list websocket :=
  omap (λ e, match e with Disconnect _ ws => Some ws | _ => None end) es.

(** No websocket is registered for two boards. *)
Definition exclusive (h : hub) : Prop :=
  ∀ sid sid' ws,
    ws ∈ participants sid h → ws ∈ participants sid' h → sid = sid'.

(** *** Sample runs *)

(** After participant 2 has joined board "S" of [hub_two_strokes]:
    participant 1 draws, participant 5 opens board "T" and draws,
    participant 2 sends an action, participant 3 joins "S". *)
Definition after_join : list event :=
  [Receive "S" 1 zoom; Connect "T" 5; Receive "T" 5 stroke_draw;
   Receive "S" 2 stroke_start; Connect "S" 3; Receive "S" 3 clear].

Definition hub_after_join : hub :=
  Eval vm_compute in
    default empty_hub (run (Connect "S" 2 :: after_join) hub_two_strokes).



End Delivery.

(** ** The board relay, await by await

    [board_ws] suspends at every [await]: in [accept], in each
    [send_json] of the replay loop (line 45) and of the broadcast loop
    (line 56), and in [receive_json] (line 49). While one handler is
    suspended the event loop may run any other, and the relay takes no
    lock. Here a handler is a coroutine with the place it is suspended
    at; one transition is the code of one handler from one [await] to the
    next, and a [send_json] may complete or raise as the connection
    decides. A message is on the wire when its [send_json] has returned.
    The module [Board] above is the part of this relay in which
    every handler runs from one [receive_json] to the next without
    another one in between and every send completes. *)

Module Relay.
Import Board.

(** Where a handler is suspended, with the local variables it will
    need: the board ([lesson_block_id]), the loop variable, and the
    iterator of the [for] loop, which is a list object and the index of
    the next item. The list of line 44 is given by its identity, for a
    clear rebinds [board_states[lesson_block_id]] to a new list while the
    replay goes on over the old one. The list of line 54 is never
    rebound, so the board names it. *)
Inductive frame :=
| Replaying (lesson_block_id : string) (list_id : nat) (action : action)
    (next : nat)
| Waiting (lesson_block_id : string)
| Broadcasting (lesson_block_id : string) (data : action)
    (conn : websocket) (next : nat).

(** The two module-level dictionaries, the history lists by identity,
    the suspended handlers by their websocket, and the messages whose
    [send_json] has completed, oldest first. *)
Record relay := Relay {
  board_connections : gmap string (list websocket);
  board_states : gmap string nat;
  lists : list (list action);
  handlers : gmap websocket frame;
  wire : list (websocket * action)
}.

Definition empty_relay : relay := Relay ∅ ∅ [] ∅ [].

(** How a [send_json] ends: it returns, it raises [WebSocketDisconnect],
    or it raises another exception. *)
Inductive outcome := Delivered | Disconnected | Failed.

Inductive event :=
| Accept (lesson_block_id : string) (ws : websocket)
| Message (lesson_block_id : string) (ws : websocket) (data : action)
| Closed (ws : websocket)
| Sent (ws : websocket) (o : outcome).

Definition participants (sid : string) (r : relay) : list websocket :=
  default [] (board_connections r !! sid).

Definition history (sid : string) (r : relay) : list action :=
  default [] (lid ← board_states r !! sid; lists r !! lid).

Definition inbox (ws : websocket) (r : relay) : list action :=
  snd <$> filter (λ m, m.1 = ws) (wire r).

Definition unregistered (ws : websocket) (r : relay) : Prop :=
  map_Forall (λ _ conns, ws ∉ conns) (board_connections r).

#[global] Instance unregistered_dec ws r : Decision (unregistered ws r).
Proof. unfold unregistered. apply _. Defined.

(** The next turn of the loop of lines 44-45: the list iterator yields
    the item at its index, if the list is that long by now, and the
    handler suspends in the send; otherwise the loop is over and the
    handler suspends in [receive_json]. *)
Definition resume_replay (sid : string) (list_id next : nat)
    (ls : list (list action)) : frame :=
  match ls !! list_id ≫= (.!! next) with
  | Some a => Replaying sid list_id a (S next)
  | None => Waiting sid
  end.

(** The first connection other than [me] among [conns], whose first
    item has index [i], with the index after it. *)
Fixpoint first_other (me : websocket) (conns : list websocket) (i : nat)
    : option (websocket * nat) :=
  match conns with
  | [] => None
  | c :: conns' =>
      if decide (c ≠ me) then Some (c, S i) else first_other me conns' (S i)
  end.

(** The next turns of the loop of lines 54-56, up to the next send. *)
Definition resume_broadcast (sid : string) (data : action) (me : websocket)
    (next : nat) (conns : list websocket) : frame :=
  match first_other me (drop next conns) next with
  | Some (c, n) => Broadcasting sid data c n
  | None => Waiting sid
  end.

(** Lines 37-45, up to the first send or to [receive_json]. *)
Definition accept (sid : string) (ws : websocket) (r : relay)
    : option relay :=
  let r1 :=
    match board_connections r !! sid with
    | None => Relay (<[sid := []]> (board_connections r))
                    (<[sid := length (lists r)]> (board_states r))
                    (lists r ++ [[]]) (handlers r) (wire r)
    | Some _ => r
    end in
  conns ← board_connections r1 !! sid;
  list_id ← board_states r1 !! sid;
  _ ← lists r1 !! list_id;
  Some (Relay (<[sid := conns ++ [ws]]> (board_connections r1))
              (board_states r1) (lists r1)
              (<[ws := resume_replay sid list_id 0 (lists r1)]> (handlers r1))
              (wire r1)).

(** Lines 50-56, up to the first send or back to [receive_json]. *)
Definition message (sid : string) (ws : websocket) (data : action)
    (r : relay) : option relay :=
  '(states, ls) ←
    (if is_clear data
     then Some (<[sid := length (lists r)]> (board_states r), lists r ++ [[]])
     else list_id ← board_states r !! sid;
          l ← lists r !! list_id;
          Some (board_states r, <[list_id := l ++ [data]]> (lists r)));
  conns ← board_connections r !! sid;
  Some (Relay (board_connections r) states ls
              (<[ws := resume_broadcast sid data ws 0 conns]> (handlers r))
              (wire r)).

(** An exception that nothing catches ends the handler. Its websocket
    stays in the list it was appended to. *)
Definition die (ws : websocket) (r : relay) : relay :=
  Relay (board_connections r) (board_states r) (lists r)
        (delete ws (handlers r)) (wire r).

(** Line 58, after which the handler returns; [list.remove] raises
    [ValueError] for an item that is not in the list. *)
Definition unregister (sid : string) (ws : websocket) (r : relay)
    : option relay :=
  conns ← board_connections r !! sid;
  Some (match list_remove ws conns with
        | Some conns' =>
            Relay (<[sid := conns']> (board_connections r)) (board_states r)
                  (lists r) (delete ws (handlers r)) (wire r)
        | None => die ws r
        end).

(** The end of the send a handler is suspended in. The replay loop is
    outside the [try], the broadcast loop inside it. *)
Definition sent (ws : websocket) (o : outcome) (r : relay) : option relay :=
  f ← handlers r !! ws;
  match f with
  | Waiting _ => None
  | Replaying sid list_id a next =>
      match o with
      | Delivered =>
          Some (Relay (board_connections r) (board_states r) (lists r)
                      (<[ws := resume_replay sid list_id next (lists r)]>
                         (handlers r))
                      (wire r ++ [(ws, a)]))
      | Disconnected | Failed => Some (die ws r)
      end
  | Broadcasting sid data c next =>
      match o with
      | Delivered =>
          conns ← board_connections r !! sid;
          Some (Relay (board_connections r) (board_states r) (lists r)
                      (<[ws := resume_broadcast sid data ws next conns]>
                         (handlers r))
                      (wire r ++ [(c, data)]))
      | Disconnected => unregister sid ws r
      | Failed => Some (die ws r)
      end
  end.

(** One transition. A connection is accepted with a websocket object
    of its own; a message or a close reaches a handler that is suspended
    in [receive_json]. *)
Definition step (e : event) (r : relay) : option relay :=
  match e with
  | Accept sid ws =>
      if decide (handlers r !! ws = None ∧ unregistered ws r)
      then accept sid ws r else None
  | Message sid ws data =>
      match handlers r !! ws with
      | Some (Waiting sid') =>
          if decide (sid' = sid) then message sid ws data r else None
      | _ => None
      end
  | Closed ws =>
      match handlers r !! ws with
      | Some (Waiting sid) => unregister sid ws r
      | _ => None
      end
  | Sent ws o => sent ws o r
  end.

Fixpoint run (es : list event) (r : relay) : option relay :=
  match es with
  | [] => Some r
  | e :: es' => r' ← step e r; run es' r'
  end.

(** The history of a board as the specification describes it: the
    actions received for the board since it was last cleared, in the
    order of their arrival, starting from [acc]. *)
Fixpoint accumulated (sid : string) (es : list event) (acc : list action)
    : list action :=
  match es with
  | [] => acc
  | Message sid' _ data :: es' =>
      if decide (sid' = sid)
      then accumulated sid es' (if is_clear data then [] else acc ++ [data])
      else accumulated sid es' acc
  | _ :: es' => accumulated sid es' acc
  end.

(** What holds of the relay between any two transitions. *)
Record sound (r : relay) : Prop := {
  same_boards : dom (board_connections r) = dom (board_states r);
  lists_exist :
    ∀ sid lid, board_states r !! sid = Some lid → lid < length (lists r);
  lists_apart :
    ∀ sid sid' lid, board_states r !! sid = Some lid →
      board_states r !! sid' = Some lid → sid = sid';
  frames_board :
    ∀ ws f, handlers r !! ws = Some f →
      match f with
      | Replaying sid _ _ _ | Waiting sid | Broadcasting sid _ _ _ =>
          sid ∈ dom (board_connections r)
      end;
  not_to_self :
    ∀ ws sid data c next,
      handlers r !! ws = Some (Broadcasting sid data c next) → c ≠ ws
}.

(** *** The relay of the module [Board] in this one *)

(** The relay as the module [Board] has it: each board with the items
    of its list. *)
Definition hub_of (r : relay) : Board.hub :=
  Board.Hub (board_connections r)
            ((λ list_id, default [] (lists r !! list_id)) <$> board_states r)
            (wire r).

(** Every handler is suspended in [receive_json], and the participants
    of a board are the connections whose handlers wait on it. *)
Definition quiet (r : relay) : Prop :=
  (∀ ws f, handlers r !! ws = Some f → ∃ sid, f = Waiting sid)
  ∧ (∀ ws sid,
       handlers r !! ws = Some (Waiting sid) ↔ ws ∈ participants sid r).

(** The turns of one handler that make a transition of [Board]: the
    handler runs from one [receive_json] to the next, each of its sends
    completing, and no other handler runs meanwhile. *)
Definition turns (e : Board.event) (r : relay) : list event :=
  match e with
  | Board.Connect sid ws =>
      Accept sid ws
      :: replicate (length (history sid r)) (Sent ws Delivered)
  | Board.Receive sid ws data =>
      Message sid ws data
      :: replicate (length (filter (λ c, c ≠ ws) (participants sid r)))
           (Sent ws Delivered)
  | Board.Disconnect sid ws => [Closed ws]
  end.

(** *** Sample runs *)

(** Participant 1 opens board "S" and draws two actions. *)
Definition two_strokes : list event :=
  [Accept "S" 1; Message "S" 1 stroke_start; Message "S" 1 stroke_draw].

Definition relay_two_strokes : relay :=
  Eval vm_compute in default empty_relay (run two_strokes empty_relay).

(** Participant 2 joins; while its handler is suspended in the first
    send of the replay, participant 1 sends another action, which is
    relayed at once; then the replay goes on. *)
Definition join_overtaken : list event :=
  [Accept "S" 2; Message "S" 1 zoom; Sent 1 Delivered;
   Sent 2 Delivered; Sent 2 Delivered; Sent 2 Delivered].

(** Participants 1, 2, 3 and 4 on board "S", all waiting. *)
Definition four_waiting : list event :=
  [Accept "S" 1; Accept "S" 2; Accept "S" 3; Accept "S" 4].

Definition relay_four_waiting : relay :=
  Eval vm_compute in default empty_relay (run four_waiting empty_relay).

(** Participant 2 sends an action. After it has been sent to 1 and
    while the handler is suspended in the send to 3, participant 1
    disconnects; the send to 3 then completes. *)
Definition broadcast_overtaken : list event :=
  [Message "S" 2 zoom; Sent 2 Delivered; Closed 1; Sent 2 Delivered].

(** Participant 2 sends an action and the first send, to participant
    1, raises [WebSocketDisconnect]. *)
Definition broadcast_cut : list event :=
  [Message "S" 2 zoom; Sent 2 Disconnected].

End Relay.

(** * Properties *)

(** ** Comparisons of floats *)

Module PyFacts.

Lemma ltb_leb (a b : float) : (a <? b) = true → (a <=? b) = true.
Proof.
  rewrite ltb_spec, leb_spec. unfold SFltb, SFleb.
  by destruct (SFcompare _ _) as [[]|].
Qed.

(** Whatever its argument (infinities and NaN included), the clamp built
    from Python's [min] and [max] lands in the unit interval. *)
Lemma clamp_in_unit (x : float) :
  Indices.in_unit (Py.min 1.0 (Py.max 0.0 x)) = true.
Proof.
  unfold Indices.in_unit, Py.min, Py.max.
  destruct (0 <? x) eqn:Hpos.
  - destruct (x <? 1) eqn:Hlt.
    + by rewrite (ltb_leb _ _ Hpos), (ltb_leb _ _ Hlt).
    + reflexivity.
  - reflexivity.
Qed.

End PyFacts.

Module IndicesFacts.
Import Indices.

(** C1 (as amended). For all inputs, [calc_overload_index] returns
    [clamp01] of the weighted sum
    [0.4*(1-accuracy) + 0.3*norm_time + 0.2*skip_rate + 0.1*sensory_mismatch],
    and the result lies in the unit interval. With all four inputs equal
    to 1 the weighted sum is 0.6, so nothing is clamped and the result
    is 0.6. *)
Theorem calc_overload_index_spec
    (accuracy norm_time skip_rate sensory_mismatch : float) :
  calc_overload_index accuracy norm_time skip_rate sensory_mismatch
    = clamp01 (0.4 * (1 - accuracy) + 0.3 * norm_time + 0.2 * skip_rate
               + 0.1 * sensory_mismatch)
  ∧ in_unit (calc_overload_index accuracy norm_time skip_rate
               sensory_mismatch) = true
  ∧ calc_overload_index 1 1 1 1 = 0.6.
Proof.
  split; [reflexivity|]. split; [apply PyFacts.clamp_in_unit|]. reflexivity.
Qed.

(** C1, counterexample. The four inputs all equal to 1 are in the unit
    interval, and the result is not 1.0 (it is 0.6, strictly below 1). *)
Lemma calc_overload_index_all_ones_not_one :
  in_unit 1 = true
  ∧ calc_overload_index 1 1 1 1 ≠ 1.0
  ∧ (calc_overload_index 1 1 1 1 <? 1.0) = true.
Proof.
  split; [reflexivity|]. split; [|reflexivity].
  intros H.
  assert (Hlt : (calc_overload_index 1 1 1 1 <? 1.0) = true) by reflexivity.
  rewrite H in Hlt. discriminate Hlt.
Qed.

(** C8. [calc_readiness_index(1, 0, 0)] is exactly 1.0 and
    [calc_readiness_index(0, 1, 1)] is exactly 0.0; the function is
    [clamp01] of [0.5*accuracy + 0.3*(1-norm_time) + 0.2*(1-fatigue_proxy)]. *)
Theorem calc_readiness_index_extremes :
  calc_readiness_index 1 0 0 = 1.0
  ∧ calc_readiness_index 0 1 1 = 0.0
  ∧ ∀ accuracy norm_time fatigue_proxy,
      calc_readiness_index accuracy norm_time fatigue_proxy
      = clamp01 (0.5 * accuracy + 0.3 * (1 - norm_time)
                 + 0.2 * (1 - fatigue_proxy)).
Proof. repeat split. Qed.

End IndicesFacts.

Module RecommendationsFacts.
Import Recommendations.

(** C7. [make_recommendation] is a function of its two arguments alone,
    decided by the first threshold that matches. An overload index above
    0.7 gives the action "Снизить сложность" (reduce difficulty) whatever
    the readiness index is; otherwise a readiness index above 0.7 gives
    "Повысить сложность" (increase difficulty); otherwise the action is
    "Оставить как есть" (leave as is, the maintain action). Each result
    is a dictionary of the action tag and an explanation text, given here
    as the source has them. Overload 0.71 with readiness 0.9, which is
    above its threshold too, gives the action to reduce. *)
Theorem make_recommendation_first_match (overload readiness : float) :
  ((0.7 <? overload) = true →
     make_recommendation overload readiness
     = {| action := "Снизить сложность";
          text := "Высокая перегрузка: снизьте сложность" |})
  ∧ ((0.7 <? overload) = false → (0.7 <? readiness) = true →
     make_recommendation overload readiness
     = {| action := "Повысить сложность";
          text := "Готовность высокая: можно усложнить задания" |})
  ∧ ((0.7 <? overload) = false → (0.7 <? readiness) = false →
     make_recommendation overload readiness
     = {| action := "Оставить как есть"; text := "Нагрузка в норме" |})
  ∧ make_recommendation 0.71 0.9
    = {| action := "Снизить сложность";
         text := "Высокая перегрузка: снизьте сложность" |}
  ∧ (0.7 <? 0.9) = true
  ∧ action (make_recommendation 0.71 0.9) ≠ "Повысить сложность".
Proof.
  unfold make_recommendation.
  repeat split; try discriminate.
  - by intros ->.
  - by intros -> ->.
  - by intros -> ->.
Qed.

End RecommendationsFacts.

Module PipelineFacts.
Import Pipeline.

Section Endpoint.

Variable compute_block_metrics : list TaskEvent → error + metrics.
Variable normalize_time : float → option float → error + float.

#[local] Abbreviation finish :=
  (finish_request compute_block_metrics normalize_time).

Ltac reduce_m := lazy beta iota zeta delta [store pending trace app].

Ltac run_finish :=
  unfold finish_request, finish_block, read, call, commit, flush, query,
    enter, add_pending, mbind, M_bind, bind, ret, raise; reduce_m.

(** The request that finds no block. *)
Lemma finish_no_block block_id now db :
  lesson_blocks db !! block_id = None →
  finish block_id now db
  = (inl (HTTPException 404 "lesson block not found"), db,
     [QueryLessonBlock]).
Proof. intros Hb. run_finish. by rewrite Hb. Qed.

(** The request that finds a block without events. *)
Lemma finish_no_events block_id now db block :
  lesson_blocks db !! block_id = Some block →
  events_of block_id db = [] →
  finish block_id now db
  = (inl (HTTPException 400 "no events"), db,
     [QueryLessonBlock; QueryTaskEvents]).
Proof. intros Hb He. run_finish. rewrite Hb; reduce_m. by rewrite He. Qed.

(** The request whose metrics call raises. *)
Lemma finish_metrics_raise block_id now db block e :
  lesson_blocks db !! block_id = Some block →
  events_of block_id db ≠ [] →
  compute_block_metrics (events_of block_id db) = inl e →
  finish block_id now db
  = (inl e, db, [QueryLessonBlock; QueryTaskEvents; ComputeBlockMetrics]).
Proof.
  intros Hb He Hm. run_finish. rewrite Hb; reduce_m.
  destruct (events_of block_id db) as [|ev evs] eqn:Hev; [done|].
  by rewrite Hm.
Qed.

(** The request that finds no profile: the metrics have been computed
    by then. *)
Lemma finish_no_profile block_id now db block m :
  lesson_blocks db !! block_id = Some block →
  events_of block_id db ≠ [] →
  compute_block_metrics (events_of block_id db) = inr m →
  profile_of (student_id block) db = None →
  finish block_id now db
  = (inl (HTTPException 400 "neuro profile not found"), db,
     [QueryLessonBlock; QueryTaskEvents; ComputeBlockMetrics;
      QueryNeuroProfile]).
Proof.
  intros Hb He Hm Hp. run_finish. rewrite Hb; reduce_m.
  destruct (events_of block_id db) as [|ev evs] eqn:Hev; [done|].
  rewrite Hm; reduce_m. by rewrite Hp.
Qed.

(** Every request stops somewhere along [stages_of_finish]; it changes
    the tables only if it succeeds, and then by both writes. *)
Lemma finish_outcome block_id now db :
  match finish block_id now db with
  | (inl _, db', tr) => db' = db ∧ tr `prefix_of` stages_of_finish
  | (inr resp, db', tr) =>
      tr = stages_of_finish
      ∧ ∃ block,
          lesson_blocks db !! block_id = Some block
          ∧ block_indices db !! block_id = None
          ∧ db' = {| lesson_blocks :=
                       <[block_id := finished now block]> (lesson_blocks db);
                     task_events := task_events db;
                     neuro_profiles := neuro_profiles db;
                     block_indices :=
                       <[block_id :=
                           {| overload_index := Some (resp_overload_index resp);
                              readiness_index := Some (resp_readiness_index resp) |}]>
                         (block_indices db) |}
  end.
Proof.
  run_finish.
  destruct (lesson_blocks db !! block_id) as [block|] eqn:Hb; reduce_m;
    [|split; [done|by eexists]].
  destruct (events_of block_id db) as [|ev evs]; reduce_m;
    [split; [done|by eexists]|].
  destruct (compute_block_metrics _) as [e|m]; reduce_m;
    [split; [done|by eexists]|].
  destruct (profile_of _ _) as [profile|]; reduce_m;
    [|split; [done|by eexists]].
  destruct (normalize_time _ _) as [e|norm_time]; reduce_m;
    [split; [done|by eexists]|].
  destruct (sensory_sensitivity profile) as [s|]; reduce_m;
    [|split; [done|by eexists]].
  unfold apply_writes, apply_write; cbn [mbind option_bind block_indices].
  destruct (block_indices db !! block_id) as [old|] eqn:Hi; reduce_m;
    [split; [done|by eexists]|].
  cbn [lesson_blocks task_events neuro_profiles block_indices
       resp_overload_index resp_readiness_index].
  split; [done|]. exists block. repeat split; [].
  f_equal. apply map_eq; intros k. rewrite lookup_alter.
  destruct (decide (block_id = k)) as [->|Hk].
  - by rewrite lookup_insert_eq, Hb.
  - by rewrite lookup_insert_ne.
Qed.

End Endpoint.

(** The scenario of the specification, run to the end: accuracy 0.75,
    skip rate 0.2 and 600 seconds give the indices 0.24 and 0.7083...,
    both writes are committed, and the advice is to increase the
    difficulty. *)
Example finish_sample_run :
  sample_finish 10 2000 sample_db
  = (inr {| resp_overload_index := 0.24000000000000002;
            resp_readiness_index := 0.70833333333333326;
            resp_recommendation := Recommendations.increase_difficulty |},
     {| lesson_blocks := {[ 10%N := finished 2000 sample_block ]};
        task_events := sample_events;
        neuro_profiles := {[ 1%N := sample_profile ]};
        block_indices :=
          {[ 10%N := {| overload_index := Some 0.24000000000000002;
                        readiness_index := Some 0.70833333333333326 |} ]} |},
     stages_of_finish).
Proof. vm_compute. reflexivity. Qed.

(** Finishing the same block again: the primary key of [block_indices]
    rejects the second index, and the tables stay as they were. *)
Example finish_sample_twice :
  let db1 := (sample_finish 10 2000 sample_db).1.2 in
  sample_finish 10 3000 db1
  = (inl (Raised "IntegrityError"), db1,
     [QueryLessonBlock; QueryTaskEvents; ComputeBlockMetrics;
      QueryNeuroProfile; NormalizeTime; CalcOverloadIndex;
      CalcReadinessIndex; Commit]).
Proof. vm_compute. reflexivity. Qed.

(** C5 (as amended). [finish_block] goes through its stages in this
    order: it looks up the block (404 "lesson block not found" if there
    is none), fetches the block's events (400 "no events" if there are
    none), runs the Metrics Aggregator on them, fetches the student's
    profile (400 "neuro profile not found" if there is none), and then
    runs the Time Normalizer, the Index Calculator (overload, then
    readiness), the commit and the Recommendation Engine. A request that
    succeeds went through all of them; any other stopped after a prefix. *)
Theorem finish_block_stage_order
    (compute_block_metrics : list TaskEvent → error + metrics)
    (normalize_time : float → option float → error + float)
    (block_id : uuid) (now : datetime) (db : database) :
  let '(r, _, tr) :=
    finish_request compute_block_metrics normalize_time block_id now db in
  tr `prefix_of` stages_of_finish
  ∧ (∀ resp, r = inr resp → tr = stages_of_finish)
  ∧ (lesson_blocks db !! block_id = None →
       r = inl (HTTPException 404 "lesson block not found")
       ∧ tr = [QueryLessonBlock])
  ∧ (∀ block,
       lesson_blocks db !! block_id = Some block →
       events_of block_id db = [] →
       r = inl (HTTPException 400 "no events")
       ∧ tr = [QueryLessonBlock; QueryTaskEvents])
  ∧ (∀ block m,
       lesson_blocks db !! block_id = Some block →
       events_of block_id db ≠ [] →
       compute_block_metrics (events_of block_id db) = inr m →
       profile_of (student_id block) db = None →
       r = inl (HTTPException 400 "neuro profile not found")
       ∧ tr = [QueryLessonBlock; QueryTaskEvents; ComputeBlockMetrics;
               QueryNeuroProfile]).
Proof.
  pose proof (finish_outcome compute_block_metrics normalize_time
                block_id now db) as Hout.
  destruct (finish_request _ _ _ _ _) as [[r db'] tr] eqn:Hrun.
  split; [|split; [|split; [|split]]].
  - destruct r as [e|resp]; [apply Hout|].
    destruct Hout as [-> _]. done.
  - intros resp ->. apply Hout.
  - intros Hb. rewrite (finish_no_block _ _ _ _ _ Hb) in Hrun.
    by simplify_eq.
  - intros block Hb He.
    rewrite (finish_no_events _ _ _ _ _ _ Hb He) in Hrun. by simplify_eq.
  - intros block m Hb He Hm Hp.
    rewrite (finish_no_profile _ _ _ _ _ _ _ Hb He Hm Hp) in Hrun.
    by simplify_eq.
Qed.

(** C5, counterexample. In the sample tables without the student's
    profile the third lookup fails, and the Metrics Aggregator has run
    before it. *)
Lemma finish_block_metrics_before_profile :
  lesson_blocks sample_db_no_profile !! 10%N = Some sample_block
  ∧ profile_of (student_id sample_block) sample_db_no_profile = None
  ∧ (sample_finish 10 2000 sample_db_no_profile).1.1
    = inl (HTTPException 400 "neuro profile not found")
  ∧ (sample_finish 10 2000 sample_db_no_profile).2
    = [QueryLessonBlock; QueryTaskEvents; ComputeBlockMetrics;
       QueryNeuroProfile].
Proof. repeat split; vm_compute; reflexivity. Qed.

(** C6. A request that fails leaves the tables as they were, whichever
    error it surfaces: 404 "lesson block not found", 400 "no events",
    400 "neuro profile not found", or what one of the later calls
    raised. A request that succeeds has stamped [finished_at] and added
    the block's index, both in one commit. *)
Theorem finish_block_all_or_nothing
    (compute_block_metrics : list TaskEvent → error + metrics)
    (normalize_time : float → option float → error + float)
    (block_id : uuid) (now : datetime) (db : database) :
  let '(r, db', _) :=
    finish_request compute_block_metrics normalize_time block_id now db in
  (lesson_blocks db !! block_id = None →
     r = inl (HTTPException 404 "lesson block not found"))
  ∧ (∀ block,
       lesson_blocks db !! block_id = Some block →
       events_of block_id db = [] →
       r = inl (HTTPException 400 "no events"))
  ∧ (∀ block m,
       lesson_blocks db !! block_id = Some block →
       events_of block_id db ≠ [] →
       compute_block_metrics (events_of block_id db) = inr m →
       profile_of (student_id block) db = None →
       r = inl (HTTPException 400 "neuro profile not found"))
  ∧ match r with
    | inl _ => db' = db
    | inr resp =>
        ∃ block,
          lesson_blocks db !! block_id = Some block
          ∧ block_indices db !! block_id = None
          ∧ lesson_blocks db'
            = <[block_id := finished now block]> (lesson_blocks db)
          ∧ block_indices db'
            = <[block_id :=
                  {| overload_index := Some (resp_overload_index resp);
                     readiness_index := Some (resp_readiness_index resp) |}]>
                (block_indices db)
          ∧ task_events db' = task_events db
          ∧ neuro_profiles db' = neuro_profiles db
    end.
Proof.
  pose proof (finish_outcome compute_block_metrics normalize_time
                block_id now db) as Hout.
  destruct (finish_request _ _ _ _ _) as [[r db'] tr] eqn:Hrun.
  split; [|split; [|split]].
  - intros Hb. rewrite (finish_no_block _ _ _ _ _ Hb) in Hrun.
    by simplify_eq.
  - intros block Hb He.
    rewrite (finish_no_events _ _ _ _ _ _ Hb He) in Hrun. by simplify_eq.
  - intros block m Hb He Hm Hp.
    rewrite (finish_no_profile _ _ _ _ _ _ _ Hb He Hm Hp) in Hrun.
    by simplify_eq.
  - destruct r as [e|resp]; [apply Hout|].
    destruct Hout as (_ & block & Hb & Hi & ->). by exists block.
Qed.

End PipelineFacts.

Module BoardFacts.
Import Board.

(** *** The test for a clear *)

Lemma is_clear_true (data : action) :
  is_clear data = true ↔ data !! "type" = Some (JString "clear").
Proof.
  unfold is_clear. destruct (data !! "type") as [[| | | |s| |]|]; try by split.
  rewrite bool_decide_eq_true. split; [by intros ->|by intros [= ->]].
Qed.

Lemma is_clear_false (data : action) :
  is_clear data = false ↔ data !! "type" ≠ Some (JString "clear").
Proof.
  rewrite <-is_clear_true. by destruct (is_clear data).
Qed.

(** *** The two loops *)

Lemma replay_spec ws (actions : list action) h :
  foldl (λ h' a, send_json ws a h') h actions
  = Hub (board_connections h) (board_states h)
        (wire h ++ ((λ a, (ws, a)) <$> actions)).
Proof.
  revert h. induction actions as [|a actions IH]; intros h; simpl.
  - rewrite app_nil_r. by destruct h.
  - rewrite IH. simpl. by rewrite <-app_assoc.
Qed.

Lemma broadcast_spec sender data (conns : list websocket) h :
  broadcast sender data conns h
  = Hub (board_connections h) (board_states h)
        (wire h ++ ((λ c, (c, data)) <$> filter (λ c, c ≠ sender) conns)).
Proof.
  unfold broadcast. revert h.
  induction conns as [|c conns IH]; intros h; simpl.
  - rewrite app_nil_r. by destruct h.
  - rewrite IH. destruct (decide (c ≠ sender)) as [Hc|Hc].
    + rewrite filter_cons_True by done. simpl. by rewrite <-app_assoc.
    + by rewrite filter_cons_False by done.
Qed.

(** *** [list.remove] *)

Lemma filter_other_id (x : websocket) (l : list websocket) :
  x ∉ l → filter (λ y, y ≠ x) l = l.
Proof.
  induction l as [|y l IH]; [done|].
  rewrite not_elem_of_cons. intros [Hxy Hx].
  rewrite filter_cons_True by congruence. by rewrite IH.
Qed.

Lemma list_remove_NoDup (x : websocket) (l : list websocket) :
  NoDup l → x ∈ l → list_remove x l = Some (filter (λ y, y ≠ x) l).
Proof.
  induction l as [|y l IH]; [by rewrite elem_of_nil|].
  rewrite NoDup_cons, elem_of_cons. intros [Hy Hl] Hx. simpl.
  destruct (decide (y = x)) as [->|Hyx].
  - rewrite filter_cons_False by (intros ?; congruence).
    by rewrite filter_other_id.
  - destruct Hx as [->|Hx]; [done|].
    rewrite IH by done. by rewrite filter_cons_True.
Qed.

(** *** The three transitions on a consistent relay *)

Lemma lookup_same_boards h sid :
  consistent h →
  is_Some (board_connections h !! sid) ↔ is_Some (board_states h !! sid).
Proof. intros [Hdom _ _]. by rewrite <-!elem_of_dom, Hdom. Qed.

Lemma connect_spec sid ws h :
  consistent h →
  connect sid ws h
  = Some (Hub (<[sid := participants sid h ++ [ws]]> (board_connections h))
              (<[sid := history sid h]> (board_states h))
              (wire h ++ ((λ a, (ws, a)) <$> history sid h))).
Proof.
  intros Hh. pose proof (lookup_same_boards h sid Hh) as Hsid.
  unfold connect, participants, history.
  destruct (board_connections h !! sid) as [conns|] eqn:Hc.
  - destruct Hsid as [[actions Ha] _]; [by eexists|].
    rewrite Hc, Ha. simpl. rewrite Ha. simpl. rewrite replay_spec. simpl.
    by rewrite (insert_id _ _ _ Ha).
  - destruct (board_states h !! sid) as [actions|] eqn:Ha.
    { destruct Hsid as [_ [? ?]]; [by eexists|done]. }
    simpl. rewrite lookup_insert_eq. simpl. rewrite lookup_insert_eq.
    simpl. by rewrite insert_insert_eq, app_nil_r.
Qed.

Lemma receive_spec sid ws data h :
  consistent h →
  is_Some (board_connections h !! sid) →
  receive sid ws data h
  = Some (Hub (board_connections h)
              (<[sid := if is_clear data then []
                        else history sid h ++ [data]]> (board_states h))
              (wire h ++ ((λ c, (c, data))
                          <$> filter (λ c, c ≠ ws) (participants sid h)))).
Proof.
  intros Hh Hc. pose proof (lookup_same_boards h sid Hh) as Hsid.
  destruct Hc as [conns Hc]. destruct Hsid as [[actions Ha] _]; [by eexists|].
  unfold receive, participants, history. rewrite Hc, Ha.
  destruct (is_clear data); simpl; by rewrite broadcast_spec.
Qed.

Lemma disconnect_spec sid ws h :
  consistent h →
  ws ∈ participants sid h →
  disconnect sid ws h
  = Some (Hub (<[sid := filter (λ c, c ≠ ws) (participants sid h)]>
                 (board_connections h))
              (board_states h) (wire h)).
Proof.
  intros Hh. unfold disconnect, participants.
  destruct (board_connections h !! sid) as [conns|] eqn:Hc; simpl;
    [|by rewrite elem_of_nil].
  intros Hws.
  by rewrite (list_remove_NoDup _ _ (registered_once h Hh _ _ Hc) Hws).
Qed.

Lemma participants_is_Some sid ws h :
  ws ∈ participants sid h → is_Some (board_connections h !! sid).
Proof.
  unfold participants.
  destruct (board_connections h !! sid); [by eexists|by rewrite elem_of_nil].
Qed.

Lemma unregistered_not_participant sid ws h :
  unregistered ws h → ws ∉ participants sid h.
Proof.
  unfold unregistered, participants. intros Hun.
  destruct (board_connections h !! sid) as [conns|] eqn:Hc; simpl.
  - by apply (Hun sid conns).
  - apply not_elem_of_nil.
Qed.

(** Each transition, guarded as in [step], in closed form. *)
Lemma step_connect sid ws h :
  consistent h → unregistered ws h →
  step (Connect sid ws) h
  = Some (Hub (<[sid := participants sid h ++ [ws]]> (board_connections h))
              (<[sid := history sid h]> (board_states h))
              (wire h ++ ((λ a, (ws, a)) <$> history sid h))).
Proof.
  intros Hh Hws. simpl. rewrite decide_True by done. by apply connect_spec.
Qed.

Lemma step_receive sid ws data h :
  consistent h → ws ∈ participants sid h →
  step (Receive sid ws data) h
  = Some (Hub (board_connections h)
              (<[sid := if is_clear data then []
                        else history sid h ++ [data]]> (board_states h))
              (wire h ++ ((λ c, (c, data))
                          <$> filter (λ c, c ≠ ws) (participants sid h)))).
Proof.
  intros Hh Hws. simpl. rewrite decide_True by done.
  apply receive_spec; [done|]. by eapply participants_is_Some.
Qed.

Lemma step_disconnect sid ws h :
  consistent h → ws ∈ participants sid h →
  step (Disconnect sid ws) h
  = Some (Hub (<[sid := filter (λ c, c ≠ ws) (participants sid h)]>
                 (board_connections h))
              (board_states h) (wire h)).
Proof.
  intros Hh Hws. simpl. rewrite decide_True by done.
  by apply disconnect_spec.
Qed.

(** A transition that goes through had its guard satisfied. *)
Lemma step_guard e h h' :
  step e h = Some h' →
  match e with
  | Connect _ ws => unregistered ws h
  | Receive sid ws _ | Disconnect sid ws => ws ∈ participants sid h
  end.
Proof. destruct e; simpl; by case_decide. Qed.

(** *** The invariant *)

Lemma dom_insert_present {A} (m : gmap string A) k v :
  k ∈ dom m → dom (<[k := v]> m) = dom m.
Proof.
  intros Hk. rewrite dom_insert_L. apply subseteq_union_1_L.
  by apply singleton_subseteq_l.
Qed.

Lemma empty_consistent : consistent empty_hub.
Proof.
  split; simpl.
  - by rewrite !dom_empty_L.
  - intros sid conns. by rewrite lookup_empty.
  - intros sid actions. by rewrite lookup_empty.
Qed.

Lemma participants_NoDup sid h : consistent h → NoDup (participants sid h).
Proof.
  intros Hh. unfold participants.
  destruct (board_connections h !! sid) as [conns|] eqn:Hc; simpl.
  - by eapply registered_once.
  - apply NoDup_nil_2.
Qed.

Lemma history_no_clear sid h :
  consistent h → Forall (λ a, is_clear a = false) (history sid h).
Proof.
  intros Hh. unfold history.
  destruct (board_states h !! sid) as [actions|] eqn:Ha; simpl.
  - by eapply no_clear_kept.
  - apply Forall_nil_2.
Qed.

Lemma participant_board sid ws h :
  consistent h → ws ∈ participants sid h →
  sid ∈ dom (board_connections h) ∧ sid ∈ dom (board_states h).
Proof.
  intros Hh Hws. apply participants_is_Some in Hws.
  rewrite <-(same_boards h Hh). by rewrite elem_of_dom.
Qed.

Lemma step_consistent e h h' :
  consistent h → step e h = Some h' → consistent h'.
Proof.
  intros Hh Hstep. pose proof (step_guard _ _ _ Hstep) as Hg.
  destruct e as [sid ws|sid ws data|sid ws].
  - rewrite step_connect in Hstep by done. simplify_eq.
    split; simpl.
    + by rewrite !dom_insert_L, (same_boards h Hh).
    + intros sid' conns. rewrite lookup_insert.
      case_decide; [|by apply registered_once]. intros [= <-].
      apply NoDup_app. split; [by apply participants_NoDup|].
      split; [|apply NoDup_singleton].
      intros x Hx. rewrite list_elem_of_singleton. intros ->.
      by apply (unregistered_not_participant sid ws h).
    + intros sid' actions. rewrite lookup_insert.
      case_decide; [|by apply no_clear_kept]. intros [= <-].
      by apply history_no_clear.
  - rewrite step_receive in Hstep by done. simplify_eq.
    destruct (participant_board _ _ _ Hh Hg) as [Hc Ha].
    split; simpl.
    + by rewrite dom_insert_present, (same_boards h Hh).
    + by apply registered_once.
    + intros sid' actions. rewrite lookup_insert.
      case_decide; [|by apply no_clear_kept]. intros [= <-].
      destruct (is_clear data) eqn:Hd; [apply Forall_nil_2|].
      apply Forall_app. split; [by apply history_no_clear|].
      by apply Forall_singleton.
  - rewrite step_disconnect in Hstep by done. simplify_eq.
    destruct (participant_board _ _ _ Hh Hg) as [Hc Ha].
    split; simpl.
    + by rewrite dom_insert_present, (same_boards h Hh).
    + intros sid' conns. rewrite lookup_insert.
      case_decide; [|by apply registered_once]. intros [= <-].
      by apply NoDup_filter, participants_NoDup.
    + by apply no_clear_kept.
Qed.

Lemma run_consistent es h h' :
  consistent h → run es h = Some h' → consistent h'.
Proof.
  revert h. induction es as [|e es IH]; intros h Hh; simpl.
  - by intros [= <-].
  - destruct (step e h) as [h1|] eqn:Hstep; simpl; [|done].
    apply IH. by eapply step_consistent.
Qed.

Lemma reachable_consistent es h :
  run es empty_hub = Some h → consistent h.
Proof. apply run_consistent, empty_consistent. Qed.

(** *** What a run does to the wire, the boards and a history *)

Lemma step_wire e h h' :
  consistent h → step e h = Some h' → wire h `prefix_of` wire h'.
Proof.
  intros Hh Hstep. pose proof (step_guard _ _ _ Hstep) as Hg.
  destruct e as [sid ws|sid ws data|sid ws].
  - rewrite step_connect in Hstep by done. simplify_eq.
    simpl. by eexists.
  - rewrite step_receive in Hstep by done. simplify_eq.
    simpl. by eexists.
  - rewrite step_disconnect in Hstep by done. by simplify_eq.
Qed.

Lemma run_wire es h h' :
  consistent h → run es h = Some h' → wire h `prefix_of` wire h'.
Proof.
  revert h. induction es as [|e es IH]; intros h Hh; simpl.
  - by intros [= <-].
  - destruct (step e h) as [h1|] eqn:Hstep; simpl; [|done].
    intros Hrun. etrans; [by eapply step_wire|].
    eapply IH; [|done]. by eapply step_consistent.
Qed.

Lemma step_boards e h h' :
  consistent h → step e h = Some h' →
  dom (board_states h) ⊆ dom (board_states h').
Proof.
  intros Hh Hstep. pose proof (step_guard _ _ _ Hstep) as Hg.
  destruct e as [sid ws|sid ws data|sid ws].
  - rewrite step_connect in Hstep by done. simplify_eq.
    simpl. rewrite dom_insert_L. set_solver.
  - rewrite step_receive in Hstep by done. simplify_eq.
    simpl. rewrite dom_insert_L. set_solver.
  - rewrite step_disconnect in Hstep by done. by simplify_eq.
Qed.

Lemma run_boards es h h' :
  consistent h → run es h = Some h' →
  dom (board_states h) ⊆ dom (board_states h').
Proof.
  revert h. induction es as [|e es IH]; intros h Hh; simpl.
  - by intros [= <-].
  - destruct (step e h) as [h1|] eqn:Hstep; simpl; [|done].
    intros Hrun. etrans; [by eapply step_boards|].
    eapply IH; [|done]. by eapply step_consistent.
Qed.

Lemma history_insert sid actions h conns w :
  history sid (Hub conns (<[sid := actions]> (board_states h)) w) = actions.
Proof. unfold history. simpl. by rewrite lookup_insert_eq. Qed.

Lemma history_insert_ne sid sid' actions h conns w :
  sid' ≠ sid →
  history sid (Hub conns (<[sid' := actions]> (board_states h)) w)
  = history sid h.
Proof. intros Hne. unfold history. simpl. by rewrite lookup_insert_ne. Qed.

Lemma step_history e sid h h' :
  consistent h → step e h = Some h' →
  history sid h' = accumulated sid [e] (history sid h).
Proof.
  intros Hh Hstep. pose proof (step_guard _ _ _ Hstep) as Hg.
  destruct e as [sid' ws|sid' ws data|sid' ws].
  - rewrite step_connect in Hstep by done. simplify_eq. simpl.
    destruct (decide (sid' = sid)) as [->|Hne].
    + apply history_insert.
    + by apply history_insert_ne.
  - rewrite step_receive in Hstep by done. simplify_eq. simpl.
    destruct (decide (sid' = sid)) as [->|Hne].
    + apply history_insert.
    + by apply history_insert_ne.
  - rewrite step_disconnect in Hstep by done. by simplify_eq.
Qed.

Lemma accumulated_cons sid e es acc :
  accumulated sid (e :: es) acc = accumulated sid es (accumulated sid [e] acc).
Proof.
  destruct e as [sid' ws|sid' ws data|sid' ws]; simpl; [done| |done].
  by destruct (decide (sid' = sid)).
Qed.

(** The history a board holds after a run is what the specification
    says it is. *)
Lemma run_history es sid h h' :
  consistent h → run es h = Some h' →
  history sid h' = accumulated sid es (history sid h).
Proof.
  revert h. induction es as [|e es IH]; intros h Hh.
  - by intros [= <-].
  - rewrite accumulated_cons. simpl run.
    destruct (step e h) as [h1|] eqn:Hstep; [|done].
    intros Hrun. rewrite <-(step_history _ _ _ _ Hh Hstep).
    apply IH; [|done]. by eapply step_consistent.
Qed.

Lemma accumulated_no_clear sid es acc :
  Forall (λ a, is_clear a = false) acc →
  Forall (λ a, is_clear a = false) (accumulated sid es acc).
Proof.
  revert acc. induction es as [|e es IH]; intros acc Hacc; [done|].
  destruct e as [sid' ws|sid' ws data|sid' ws]; simpl; try by apply IH.
  destruct (decide (sid' = sid)); [|by apply IH].
  apply IH. destruct (is_clear data) eqn:Hd; [apply Forall_nil_2|].
  apply Forall_app. split; [done|]. by apply Forall_singleton.
Qed.

(** *** Inboxes *)

Lemma inbox_app ws conns states w1 w2 :
  inbox ws (Hub conns states (w1 ++ w2))
  = inbox ws (Hub conns states w1) ++ inbox ws (Hub conns states w2).
Proof. unfold inbox. simpl. by rewrite filter_app, fmap_app. Qed.

(** A replay goes to the joiner and to nobody else. *)
Lemma inbox_replay c ws (actions : list action) conns states :
  inbox c (Hub conns states ((λ a, (ws, a)) <$> actions))
  = if decide (c = ws) then actions else [].
Proof.
  unfold inbox. cbn [wire]. destruct (decide (c = ws)) as [->|Hne].
  - induction actions as [|a actions IH]; [done|].
    rewrite fmap_cons, filter_cons_True, fmap_cons by done.
    by rewrite IH.
  - induction actions as [|a actions IH]; [done|].
    by rewrite fmap_cons, filter_cons_False by (simpl; congruence).
Qed.

(** A broadcast over connections registered once reaches each of them
    once. *)
Lemma inbox_broadcast c data (targets : list websocket) conns states :
  NoDup targets →
  inbox c (Hub conns states ((λ c', (c', data)) <$> targets))
  = if decide (c ∈ targets) then [data] else [].
Proof.
  unfold inbox. cbn [wire]. induction targets as [|c' targets IH].
  - intros _. rewrite decide_False; [done|apply not_elem_of_nil].
  - rewrite NoDup_cons. intros [Hc' Hnd]. specialize (IH Hnd).
    rewrite fmap_cons. destruct (decide (c' = c)) as [->|Hne].
    + rewrite filter_cons_True, fmap_cons, IH by done.
      rewrite decide_False by done.
      rewrite decide_True; [done|by left].
    + rewrite filter_cons_False, IH by done.
      destruct (decide (c ∈ targets)) as [Hin|Hin].
      * rewrite decide_True; [done|by right].
      * rewrite decide_False; [done|].
        rewrite not_elem_of_cons. split; [congruence|done].
Qed.

(** *** Connecting *)

(** The scenario of the specification: the joiner receives the two
    actions, in their order, and the participant who drew them nothing;
    a further action of participant 1 then reaches participant 2 only. *)
Example joiner_receives_history :
  run (two_strokes ++ [Connect "S" 2]) empty_hub = Some hub_joined
  ∧ inbox 2 hub_joined = [stroke_start; stroke_draw]
  ∧ inbox 1 hub_joined = []
  ∧ (h ← step (Receive "S" 1 zoom) hub_joined; Some (inbox 2 h, inbox 1 h))
    = Some ([stroke_start; stroke_draw; zoom], []).
Proof. repeat split; vm_compute; reflexivity. Qed.

(** *** Receiving *)


(** Participant 2 of the busy board "S" sends an action of an unknown
    type: participants 1 and 3 are sent the action, in that order,
    participant 2 and board "T" are not. *)
Example unknown_action_relayed :
  (h ← step (Receive "S" 2 zoom) hub_busy;
   Some (drop (length (wire hub_busy)) (wire h), history "S" h,
         history "T" h))
  = Some ([(1%nat, zoom); (3%nat, zoom)], [stroke_start; zoom],
          [stroke_draw]).
Proof. vm_compute. reflexivity. Qed.

(** C4. A clear action empties the history of its board and is not
    kept in it. A participant that connects right after the clear is
    replayed nothing; one that connects later is replayed exactly the
    actions received for the board after the clear and since its last
    clear, none of which is a clear action. *)
Theorem clear_resets_history (es : list event) (h : hub)
    (sid : string) (ws : websocket) (data : action) :
  run es empty_hub = Some h →
  ws ∈ participants sid h →
  data !! "type" = Some (JString "clear") →
  ∃ h',
    step (Receive sid ws data) h = Some h'
    ∧ board_states h' !! sid = Some []
    ∧ (∀ p, unregistered p h' →
         ∃ h'', step (Connect sid p) h' = Some h'' ∧ wire h'' = wire h')
    ∧ (∀ es' h1 p,
         run es' h' = Some h1 → unregistered p h1 →
         ∃ h2,
           step (Connect sid p) h1 = Some h2
           ∧ wire h2 = wire h1 ++ ((λ a, (p, a)) <$> accumulated sid es' [])
           ∧ Forall (λ a, is_clear a = false) (accumulated sid es' [])).
Proof.
  intros Hrun Hws Hdata. pose proof (reachable_consistent _ _ Hrun) as Hh.
  apply is_clear_true in Hdata.
  pose proof (step_receive sid ws data h Hh Hws) as Hstep.
  rewrite Hdata in Hstep.
  pose proof (step_consistent _ _ _ Hh Hstep) as Hh'.
  eexists. split; [exact Hstep|].
  split; [simpl; by rewrite lookup_insert_eq|]. split.
  - intros p Hp. eexists. split; [by apply step_connect|].
    rewrite history_insert. simpl. by rewrite app_nil_r.
  - intros es' h1 p Hrun1 Hp.
    pose proof (run_consistent _ _ _ Hh' Hrun1) as Hh1.
    pose proof (run_history es' sid _ _ Hh' Hrun1) as Hhist.
    rewrite history_insert in Hhist.
    eexists. split; [by apply step_connect|]. simpl. rewrite Hhist.
    split; [done|]. apply accumulated_no_clear, Forall_nil_2.
Qed.

(** C4, witness: participant 1 clears board "S" of [hub_joined]. *)
Lemma clear_resets_history_witness :
  ∃ h',
    step (Receive "S" 1 clear) hub_joined = Some h'
    ∧ board_states h' !! "S" = Some []
    ∧ (∀ p, unregistered p h' →
         ∃ h'', step (Connect "S" p) h' = Some h'' ∧ wire h'' = wire h')
    ∧ (∀ es' h1 p,
         run es' h' = Some h1 → unregistered p h1 →
         ∃ h2,
           step (Connect "S" p) h1 = Some h2
           ∧ wire h2 = wire h1 ++ ((λ a, (p, a)) <$> accumulated "S" es' [])
           ∧ Forall (λ a, is_clear a = false) (accumulated "S" es' [])).
Proof.
  apply (clear_resets_history (two_strokes ++ [Connect "S" 2]) hub_joined
           "S" 1 clear).
  - vm_compute. reflexivity.
  - apply (bool_decide_unpack _). vm_compute. exact I.
  - vm_compute. reflexivity.
Defined.

(** The scenario of the specification: the clear reaches participant 2
    live, and participant 3, who joins afterwards, is sent nothing; after
    one more action a fourth participant is replayed that action only. *)
Example joiner_after_clear :
  (h ← run [Receive "S" 1 clear; Connect "S" 3] hub_joined;
   Some (inbox 3 h, inbox 2 h, history "S" h))
  = Some ([], [stroke_start; stroke_draw; clear], [])
  ∧ (h ← run [Receive "S" 1 clear; Connect "S" 3; Receive "S" 3 zoom;
              Connect "S" 4] hub_joined;
     Some (inbox 4 h))
    = Some [zoom].
Proof. split; vm_compute; reflexivity. Qed.

(** *** Disconnecting *)



Example participant_two_leaves :
  (h ← step (Disconnect "S" 2) hub_busy;
   Some (participants "S" h, participants "T" h, history "S" h))
  = Some ([1%nat; 3%nat], [4%nat], [stroke_start]).
Proof. vm_compute. reflexivity. Qed.

(** *** The boards of the relay *)

(** C10. After any run from the empty relay the two dictionaries have
    the same boards. A first connect creates the participant list and
    the empty history of a board together, and no later run removes a
    board from either dictionary: the history stays when all
    participants have left. *)
Theorem boards_created_together_and_kept (es : list event) (h : hub) :
  run es empty_hub = Some h →
  dom (board_connections h) = dom (board_states h)
  ∧ (∀ sid ws,
       sid ∉ dom (board_connections h) → unregistered ws h →
       ∃ h', step (Connect sid ws) h = Some h'
             ∧ board_connections h' !! sid = Some [ws]
             ∧ board_states h' !! sid = Some [])
  ∧ (∀ es' h',
       run es' h = Some h' →
       dom (board_connections h') = dom (board_states h')
       ∧ dom (board_states h) ⊆ dom (board_states h')
       ∧ dom (board_connections h) ⊆ dom (board_connections h')).
Proof.
  intros Hrun. pose proof (reachable_consistent _ _ Hrun) as Hh.
  split; [by apply same_boards|]. split.
  - intros sid ws Hsid Hws. eexists. split; [by apply step_connect|].
    apply not_elem_of_dom in Hsid as Hc.
    rewrite (same_boards h Hh) in Hsid. apply not_elem_of_dom in Hsid as Ha.
    unfold participants, history. rewrite Hc, Ha. simpl.
    by rewrite !lookup_insert_eq.
  - intros es' h' Hrun'.
    pose proof (run_consistent _ _ _ Hh Hrun') as Hh'.
    pose proof (run_boards _ _ _ Hh Hrun') as Hsub.
    split; [by apply same_boards|]. split; [done|].
    by rewrite (same_boards h Hh), (same_boards h' Hh').
Qed.

(** C10, witness: board "S" after its only participant has left. *)
Lemma boards_created_together_and_kept_witness :
  dom (board_connections hub_deserted) = dom (board_states hub_deserted)
  ∧ (∀ sid ws,
       sid ∉ dom (board_connections hub_deserted) →
       unregistered ws hub_deserted →
       ∃ h', step (Connect sid ws) hub_deserted = Some h'
             ∧ board_connections h' !! sid = Some [ws]
             ∧ board_states h' !! sid = Some [])
  ∧ (∀ es' h',
       run es' hub_deserted = Some h' →
       dom (board_connections h') = dom (board_states h')
       ∧ dom (board_states hub_deserted) ⊆ dom (board_states h')
       ∧ dom (board_connections hub_deserted) ⊆ dom (board_connections h')).
Proof.
  apply (boards_created_together_and_kept
           (two_strokes ++ [Disconnect "S" 1]) hub_deserted).
  vm_compute. reflexivity.
Defined.

Example deserted_board_keeps_history :
  participants "S" hub_deserted = []
  ∧ history "S" hub_deserted = [stroke_start; stroke_draw]
  ∧ dom (board_connections hub_deserted) = {[ "S" ]}
  ∧ dom (board_states hub_deserted) = {[ "S" ]}.
Proof. repeat split; vm_compute; reflexivity. Qed.

End BoardFacts.

(** ** More on the indices and the recommendation *)

Module IndexEdges.
Import Indices Recommendations.

(** *** The order of floats and NaN *)

Lemma SFcompare_antisym (x y : spec_float) :
  SFcompare y x = CompOpp <$> SFcompare x y.
Proof.
  destruct x as [sx|sx| |sx mx ex], y as [sy|sy| |sy my ey]; simpl;
    try reflexivity; try (by destruct sx); try (by destruct sy);
    try (by destruct sx, sy).
  destruct sx, sy; simpl; try reflexivity.
  - rewrite (Z.compare_antisym ey ex).
    destruct (ey ?= ex)%Z; simpl; try reflexivity.
    f_equal. rewrite CompOpp_involutive.
    exact (Pos.compare_cont_antisym my mx Eq).
  - rewrite (Z.compare_antisym ey ex).
    destruct (ey ?= ex)%Z; simpl; try reflexivity.
    f_equal. symmetry. exact (Pos.compare_cont_antisym mx my Eq).
Qed.

Lemma leb_not_gt (a b : float) : (a <=? b) = true → (b <? a) = false.
Proof.
  rewrite ltb_spec, leb_spec. unfold SFltb, SFleb.
  rewrite (SFcompare_antisym (Prim2SF a) (Prim2SF b)).
  by destruct (SFcompare _ _) as [[]|].
Qed.

Lemma is_nan_Prim2SF x : is_nan x = true → Prim2SF x = S754_nan.
Proof.
  intros H. unfold Prim2SF. destruct (is_nan x); [reflexivity|discriminate H].
Qed.

Lemma Prim2SF_is_nan x : Prim2SF x = S754_nan → is_nan x = true.
Proof.
  intros H. unfold is_nan. by rewrite FloatAxioms.eqb_spec, H.
Qed.

Lemma nan_mul_r x y : is_nan y = true → is_nan (x * y) = true.
Proof.
  intros H%is_nan_Prim2SF. apply Prim2SF_is_nan. rewrite mul_spec, H.
  unfold SF64mul. by destruct (Prim2SF x).
Qed.

Lemma nan_add_l x y : is_nan x = true → is_nan (x + y) = true.
Proof.
  intros H%is_nan_Prim2SF. apply Prim2SF_is_nan. by rewrite add_spec, H.
Qed.

Lemma nan_add_r x y : is_nan y = true → is_nan (x + y) = true.
Proof.
  intros H%is_nan_Prim2SF. apply Prim2SF_is_nan. rewrite add_spec, H.
  unfold SF64add. by destruct (Prim2SF x).
Qed.

Lemma nan_sub_r x y : is_nan y = true → is_nan (x - y) = true.
Proof.
  intros H%is_nan_Prim2SF. apply Prim2SF_is_nan. rewrite sub_spec, H.
  unfold SF64sub. by destruct (Prim2SF x).
Qed.

Lemma nan_not_gt x y : is_nan y = true → (x <? y) = false.
Proof.
  intros H%is_nan_Prim2SF. rewrite ltb_spec, H. unfold SFltb.
  by destruct (Prim2SF x).
Qed.

(** Python's clamp sends NaN to 0.0: [max(0.0, nan)] keeps its first
    argument. *)
Lemma clamp_nan x : is_nan x = true → Py.min 1.0 (Py.max 0.0 x) = 0.
Proof.
  intros H. unfold Py.min, Py.max. by rewrite (nan_not_gt 0 x H).
Qed.

(** *** The indices *)

(** X1. Whatever its three arguments, infinities and NaN included,
    [calc_readiness_index] returns a float of the unit interval. *)
Theorem calc_readiness_index_in_unit (accuracy norm_time fatigue_proxy : float) :
  in_unit (calc_readiness_index accuracy norm_time fatigue_proxy) = true.
Proof. apply PyFacts.clamp_in_unit. Qed.

(** X2. If one of its four arguments is NaN, [calc_overload_index]
    returns 0.0, the value of no overload, and not NaN. *)
Theorem calc_overload_index_nan
    (accuracy norm_time skip_rate sensory_mismatch : float) :
  is_nan accuracy || is_nan norm_time || is_nan skip_rate
    || is_nan sensory_mismatch = true →
  calc_overload_index accuracy norm_time skip_rate sensory_mismatch = 0.
Proof.
  intros H. apply clamp_nan.
  repeat (apply orb_true_iff in H as [H|H]).
  - by do 2 apply nan_add_l; apply nan_add_l, nan_mul_r, nan_sub_r.
  - by do 2 apply nan_add_l; apply nan_add_r, nan_mul_r.
  - by apply nan_add_l, nan_add_r, nan_mul_r.
  - by apply nan_add_r, nan_mul_r.
Qed.

(** X2, witness: an undefined sensory mismatch. *)
Lemma calc_overload_index_nan_witness :
  calc_overload_index 0.75 0.3 0.2 nan = 0.
Proof. apply calc_overload_index_nan. reflexivity. Defined.

(** X3. If one of its three arguments is NaN, [calc_readiness_index]
    returns 0.0, the value of no readiness, and not NaN. *)
Theorem calc_readiness_index_nan (accuracy norm_time fatigue_proxy : float) :
  is_nan accuracy || is_nan norm_time || is_nan fatigue_proxy = true →
  calc_readiness_index accuracy norm_time fatigue_proxy = 0.
Proof.
  intros H. apply clamp_nan.
  repeat (apply orb_true_iff in H as [H|H]).
  - by apply nan_add_l, nan_add_l, nan_mul_r.
  - by apply nan_add_l, nan_add_r, nan_mul_r, nan_sub_r.
  - by apply nan_add_r, nan_mul_r, nan_sub_r.
Qed.

(** X3, witness: an undefined normalised time. *)
Lemma calc_readiness_index_nan_witness :
  calc_readiness_index 0.75 nan 0.3 = 0.
Proof. apply calc_readiness_index_nan. reflexivity. Defined.

(** *** The thresholds *)

(** X4. Both thresholds of [make_recommendation] are strict: with an
    overload index and a readiness index of at most 0.7 each, 0.7
    itself included, the advice is to leave the difficulty as it is. *)
Theorem make_recommendation_at_most_threshold (overload readiness : float) :
  (overload <=? 0.7) = true →
  (readiness <=? 0.7) = true →
  make_recommendation overload readiness = maintain.
Proof.
  intros Ho Hr. unfold make_recommendation.
  by rewrite (leb_not_gt _ _ Ho), (leb_not_gt _ _ Hr).
Qed.

(** X4, witness: both indices on the threshold. *)
Lemma make_recommendation_at_most_threshold_witness :
  make_recommendation 0.7 0.7 = maintain.
Proof.
  apply make_recommendation_at_most_threshold; reflexivity.
Defined.

End IndexEdges.

(** ** More on the finish endpoint *)

Module FinishEdges.
Import Indices Recommendations Pipeline Intake.

Section Endpoint.

Variable compute_block_metrics : list TaskEvent → error + metrics.
Variable normalize_time : float → option float → error + float.

#[local] Abbreviation finish :=
  (finish_request compute_block_metrics normalize_time).

Ltac reduce_m := lazy beta iota zeta delta [store pending trace app].

Ltac run_finish :=
  unfold finish_request, finish_block, read, call, commit, flush, query,
    enter, add_pending, mbind, M_bind, bind, ret, raise; reduce_m.

(** What a request that succeeds has found, and what it answers. *)
Lemma finish_success block_id now db resp db' tr :
  finish block_id now db = (inr resp, db', tr) →
  ∃ block m profile t s,
    lesson_blocks db !! block_id = Some block
    ∧ events_of block_id db ≠ []
    ∧ compute_block_metrics (events_of block_id db) = inr m
    ∧ profile_of (student_id block) db = Some profile
    ∧ normalize_time (duration m) (processing_speed profile) = inr t
    ∧ sensory_sensitivity profile = Some s
    ∧ block_indices db !! block_id = None
    ∧ resp_overload_index resp
      = calc_overload_index (accuracy m) t (skip_rate m)
          (abs (0.5 - (1 - s)))
    ∧ resp_readiness_index resp
      = calc_readiness_index (accuracy m) t (Py.min (duration m / 1800) 1.0)
    ∧ resp_recommendation resp
      = make_recommendation (resp_overload_index resp)
          (resp_readiness_index resp).
Proof.
  run_finish.
  destruct (lesson_blocks db !! block_id) as [block|] eqn:Hb; reduce_m;
    [|by intros [= ]].
  destruct (events_of block_id db) as [|ev evs] eqn:He; reduce_m;
    [by intros [= ]|].
  destruct (compute_block_metrics _) as [e|m] eqn:Hm; reduce_m;
    [by intros [= ]|].
  destruct (profile_of _ _) as [profile|] eqn:Hp; reduce_m;
    [|by intros [= ]].
  destruct (normalize_time _ _) as [e|t] eqn:Ht; reduce_m;
    [by intros [= ]|].
  destruct (sensory_sensitivity profile) as [s|] eqn:Hs; reduce_m;
    [|by intros [= ]].
  unfold apply_writes, apply_write; cbn [mbind option_bind block_indices].
  destruct (block_indices db !! block_id) as [old|] eqn:Hi; reduce_m;
    [by intros [= ]|].
  intros [= <- <- <-]. exists block, m, profile, t, s.
  by repeat split.
Qed.

(** X7. A profile without a sensory sensitivity makes the request fail
    with [TypeError]: the mismatch is computed from it unguarded, after
    [normalize_time] has been called. Nothing is written. *)
Theorem finish_block_null_sensitivity block_id now db block m profile t :
  lesson_blocks db !! block_id = Some block →
  events_of block_id db ≠ [] →
  compute_block_metrics (events_of block_id db) = inr m →
  profile_of (student_id block) db = Some profile →
  normalize_time (duration m) (processing_speed profile) = inr t →
  sensory_sensitivity profile = None →
  finish block_id now db
  = (inl (Raised "TypeError"), db,
     [QueryLessonBlock; QueryTaskEvents; ComputeBlockMetrics;
      QueryNeuroProfile; NormalizeTime]).
Proof.
  intros Hb He Hm Hp Ht Hs. run_finish. rewrite Hb; reduce_m.
  destruct (events_of block_id db) as [|ev evs] eqn:Hev; [done|].
  rewrite Hm; reduce_m. rewrite Hp; reduce_m. rewrite Ht; reduce_m.
  by rewrite Hs.
Qed.

(** X8. The outcome of a request depends on four things only: the row
    of its block, the events of the block, the profile of the block's
    student and the index of the block. Tables that agree on these give
    the same answer or error and the same stages, whatever other blocks,
    events, profiles and indices they hold. *)
Theorem finish_block_reads_own_rows block_id now db1 db2 :
  lesson_blocks db1 !! block_id = lesson_blocks db2 !! block_id →
  events_of block_id db1 = events_of block_id db2 →
  (∀ block, lesson_blocks db1 !! block_id = Some block →
     profile_of (student_id block) db1 = profile_of (student_id block) db2) →
  block_indices db1 !! block_id = block_indices db2 !! block_id →
  (finish block_id now db1).1.1 = (finish block_id now db2).1.1
  ∧ (finish block_id now db1).2 = (finish block_id now db2).2.
Proof.
  intros Hb He Hp Hi. run_finish. rewrite <-Hb.
  destruct (lesson_blocks db1 !! block_id) as [block|] eqn:Hb1; reduce_m;
    [|done].
  rewrite <-He.
  destruct (events_of block_id db1) as [|ev evs]; reduce_m; [done|].
  destruct (compute_block_metrics _) as [e|m]; reduce_m; [done|].
  rewrite <-(Hp block eq_refl).
  destruct (profile_of _ _) as [profile|]; reduce_m; [|done].
  destruct (normalize_time _ _) as [e|t]; reduce_m; [done|].
  destruct (sensory_sensitivity profile) as [s|]; reduce_m; [|done].
  unfold apply_writes, apply_write; cbn [mbind option_bind block_indices].
  rewrite <-Hi.
  by destruct (block_indices db1 !! block_id) as [old|]; reduce_m.
Qed.

(** The request for a block that has an index already. *)
Lemma finish_duplicate_index block_id now db block m profile t s old :
  lesson_blocks db !! block_id = Some block →
  events_of block_id db ≠ [] →
  compute_block_metrics (events_of block_id db) = inr m →
  profile_of (student_id block) db = Some profile →
  normalize_time (duration m) (processing_speed profile) = inr t →
  sensory_sensitivity profile = Some s →
  block_indices db !! block_id = Some old →
  finish block_id now db
  = (inl (Raised "IntegrityError"), db,
     [QueryLessonBlock; QueryTaskEvents; ComputeBlockMetrics;
      QueryNeuroProfile; NormalizeTime; CalcOverloadIndex;
      CalcReadinessIndex; Commit]).
Proof.
  intros Hb He Hm Hp Ht Hs Hi. run_finish. rewrite Hb; reduce_m.
  destruct (events_of block_id db) as [|ev evs] eqn:Hev; [done|].
  rewrite Hm; reduce_m. rewrite Hp; reduce_m. rewrite Ht; reduce_m.
  rewrite Hs; reduce_m.
  unfold apply_writes, apply_write; cbn [mbind option_bind block_indices].
  by rewrite Hi.
Qed.

(** A block with an event gets as far as the Metrics Aggregator. *)
Lemma finish_reaches_metrics block_id now db block :
  lesson_blocks db !! block_id = Some block →
  events_of block_id db ≠ [] →
  [QueryLessonBlock; QueryTaskEvents; ComputeBlockMetrics]
    `prefix_of` (finish block_id now db).2.
Proof.
  intros Hb He. run_finish. rewrite Hb; reduce_m.
  destruct (events_of block_id db) as [|ev evs] eqn:Hev; [done|]. reduce_m.
  destruct (compute_block_metrics _) as [e|m]; reduce_m; [by eexists|].
  destruct (profile_of _ _) as [profile|]; reduce_m; [|by eexists].
  destruct (normalize_time _ _) as [e|t]; reduce_m; [by eexists|].
  destruct (sensory_sensitivity profile) as [s|]; reduce_m; [|by eexists].
  unfold apply_writes, apply_write; cbn [mbind option_bind block_indices].
  destruct (block_indices db !! block_id) as [old|]; reduce_m; by eexists.
Qed.

End Endpoint.

(** X5. The answer of a request that succeeds: both indices lie in the
    unit interval, the recommendation is the one [make_recommendation]
    gives for these two indices, and the index stored for the block
    holds the same two numbers. *)
Theorem finish_block_answer
    (compute_block_metrics : list TaskEvent → error + metrics)
    (normalize_time : float → option float → error + float)
    (block_id : uuid) (now : datetime) (db db' : database)
    (resp : response) (tr : list stage) :
  finish_request compute_block_metrics normalize_time block_id now db
  = (inr resp, db', tr) →
  in_unit (resp_overload_index resp) = true
  ∧ in_unit (resp_readiness_index resp) = true
  ∧ resp_recommendation resp
    = make_recommendation (resp_overload_index resp)
        (resp_readiness_index resp)
  ∧ block_indices db' !! block_id
    = Some {| overload_index := Some (resp_overload_index resp);
              readiness_index := Some (resp_readiness_index resp) |}.
Proof.
  intros Hrun.
  destruct (finish_success _ _ _ _ _ _ _ _ Hrun)
    as (block & m & profile & t & s & _ & _ & _ & _ & _ & _ & _
        & Ho & Hr & Hrec).
  pose proof (PipelineFacts.finish_outcome compute_block_metrics
                normalize_time block_id now db) as Hout.
  rewrite Hrun in Hout. destruct Hout as (_ & block' & _ & _ & ->).
  split; [rewrite Ho; apply PyFacts.clamp_in_unit|].
  split; [rewrite Hr; apply PyFacts.clamp_in_unit|].
  split; [done|]. simpl. by rewrite lookup_insert_eq.
Qed.

(** X5, witness: the scenario of the specification. *)
Lemma finish_block_answer_witness :
  let resp := {| resp_overload_index := 0.24000000000000002;
                 resp_readiness_index := 0.70833333333333326;
                 resp_recommendation := increase_difficulty |} in
  in_unit (resp_overload_index resp) = true
  ∧ in_unit (resp_readiness_index resp) = true
  ∧ resp_recommendation resp
    = make_recommendation (resp_overload_index resp)
        (resp_readiness_index resp)
  ∧ block_indices sample_db_finished !! 10%N
    = Some {| overload_index := Some (resp_overload_index resp);
              readiness_index := Some (resp_readiness_index resp) |}.
Proof.
  apply (finish_block_answer (compute_block_metrics_model 600)
           normalize_time_model 10 2000 sample_db sample_db_finished _
           stages_of_finish).
  vm_compute. reflexivity.
Defined.

(** X6. A block that has an index is never finished again: whatever
    the request finds, it fails and leaves the tables as they were; when
    everything up to the commit goes through, the commit is rejected with
    [IntegrityError]. *)
Theorem finish_block_once
    (compute_block_metrics : list TaskEvent → error + metrics)
    (normalize_time : float → option float → error + float)
    (block_id : uuid) (now : datetime) (db : database) (old : BlockIndex) :
  block_indices db !! block_id = Some old →
  (∃ e tr,
     finish_request compute_block_metrics normalize_time block_id now db
     = (inl e, db, tr))
  ∧ (∀ block m profile t s,
       lesson_blocks db !! block_id = Some block →
       events_of block_id db ≠ [] →
       compute_block_metrics (events_of block_id db) = inr m →
       profile_of (student_id block) db = Some profile →
       normalize_time (duration m) (processing_speed profile) = inr t →
       sensory_sensitivity profile = Some s →
       finish_request compute_block_metrics normalize_time block_id now db
       = (inl (Raised "IntegrityError"), db,
          [QueryLessonBlock; QueryTaskEvents; ComputeBlockMetrics;
           QueryNeuroProfile; NormalizeTime; CalcOverloadIndex;
           CalcReadinessIndex; Commit])).
Proof.
  intros Hi. split.
  - pose proof (PipelineFacts.finish_outcome compute_block_metrics
                  normalize_time block_id now db) as Hout.
    destruct (finish_request _ _ _ _ _) as [[[e|resp] db'] tr].
    + destruct Hout as [-> _]. by exists e, tr.
    + destruct Hout as (_ & block & _ & Hnone & _). congruence.
  - intros block m profile t s Hb He Hm Hp Ht Hs.
    by eapply finish_duplicate_index.
Qed.

(** X6, witness: block 10 of the sample tables, finished once. *)
Lemma finish_block_once_witness :
  (∃ e tr, sample_finish 10 3000 sample_db_finished
           = (inl e, sample_db_finished, tr))
  ∧ (∀ block m profile t s,
       lesson_blocks sample_db_finished !! 10%N = Some block →
       events_of 10 sample_db_finished ≠ [] →
       compute_block_metrics_model 600 (events_of 10 sample_db_finished)
       = inr m →
       profile_of (student_id block) sample_db_finished = Some profile →
       normalize_time_model (duration m) (processing_speed profile) = inr t →
       sensory_sensitivity profile = Some s →
       sample_finish 10 3000 sample_db_finished
       = (inl (Raised "IntegrityError"), sample_db_finished,
          [QueryLessonBlock; QueryTaskEvents; ComputeBlockMetrics;
           QueryNeuroProfile; NormalizeTime; CalcOverloadIndex;
           CalcReadinessIndex; Commit])).
Proof.
  apply (finish_block_once (compute_block_metrics_model 600)
           normalize_time_model 10 3000 sample_db_finished
           {| overload_index := Some 0.24000000000000002;
              readiness_index := Some 0.70833333333333326 |}).
  vm_compute. reflexivity.
Defined.

(** X7, witness: the sample tables with the sensitivity missing. *)
Lemma finish_block_null_sensitivity_witness :
  sample_finish 10 2000 sample_db_null_sensitivity
  = (inl (Raised "TypeError"), sample_db_null_sensitivity,
     [QueryLessonBlock; QueryTaskEvents; ComputeBlockMetrics;
      QueryNeuroProfile; NormalizeTime]).
Proof.
  eapply (finish_block_null_sensitivity (compute_block_metrics_model 600)
            normalize_time_model 10 2000 sample_db_null_sensitivity).
  - vm_compute. reflexivity.
  - vm_compute. discriminate.
  - vm_compute. reflexivity.
  - vm_compute. reflexivity.
  - vm_compute. reflexivity.
  - vm_compute. reflexivity.
Defined.

(** X8, witness: the sample tables, alone and with a second block, its
    event, its index and a second profile. *)
Lemma finish_block_reads_own_rows_witness :
  (sample_finish 10 2000 sample_db).1.1
  = (sample_finish 10 2000 sample_db_crowded).1.1
  ∧ (sample_finish 10 2000 sample_db).2
    = (sample_finish 10 2000 sample_db_crowded).2.
Proof.
  apply (finish_block_reads_own_rows (compute_block_metrics_model 600)
           normalize_time_model 10 2000 sample_db sample_db_crowded).
  - vm_compute. reflexivity.
  - vm_compute. reflexivity.
  - intros block Hb. vm_compute in Hb. injection Hb as <-.
    vm_compute. reflexivity.
  - vm_compute. reflexivity.
Defined.

End FinishEdges.

(** ** The endpoints that fill the tables *)

Module IntakeFacts.
Import Pipeline Intake.

Lemma events_of_app block_id db rows :
  filter (λ e, lesson_block_id e = Some block_id) (task_events db ++ rows)
  = events_of block_id db
    ++ filter (λ e, lesson_block_id e = Some block_id) rows.
Proof. unfold events_of. by rewrite filter_app. Qed.

(** X9. [create_event] checks nothing about the event it is given: if
    the id drawn for the row is free, the row is added at the end of
    [task_events], whether or not its block, student or task exist. The
    events that [finish_block] fetches for the block named in the row
    grow by this row, those of every other block stay as they are, and so
    do the other three tables. *)
Theorem create_event_records_row (new_id : uuid) (data : EventCreate)
    (db : database) :
  new_id ∉ id <$> task_events db →
  ∃ db',
    create_event new_id data db = (inr "ok", db')
    ∧ task_events db' = task_events db ++ [event_row new_id data]
    ∧ (∀ b, ec_lesson_block_id data = Some b →
         events_of b db' = events_of b db ++ [event_row new_id data])
    ∧ (∀ b, ec_lesson_block_id data ≠ Some b →
         events_of b db' = events_of b db)
    ∧ lesson_blocks db' = lesson_blocks db
    ∧ neuro_profiles db' = neuro_profiles db
    ∧ block_indices db' = block_indices db.
Proof.
  intros Hfresh. unfold create_event. rewrite decide_False by done.
  eexists. split; [done|]. simpl. split; [done|].
  split; [|split; [|done]].
  - intros b Hb. unfold events_of at 1. simpl. rewrite events_of_app.
    by rewrite filter_cons_True.
  - intros b Hb. unfold events_of at 1. simpl. rewrite events_of_app.
    rewrite filter_cons_False by done. by rewrite app_nil_r.
Qed.

(** X9, witness: a skip for block 99, which does not exist, recorded
    in the tables left by the finished sample block. *)
Lemma create_event_records_row_witness :
  ∃ db',
    create_event 50 sample_orphan sample_db_finished = (inr "ok", db')
    ∧ task_events db'
      = task_events sample_db_finished ++ [event_row 50 sample_orphan]
    ∧ (∀ b, ec_lesson_block_id sample_orphan = Some b →
         events_of b db'
         = events_of b sample_db_finished ++ [event_row 50 sample_orphan])
    ∧ (∀ b, ec_lesson_block_id sample_orphan ≠ Some b →
         events_of b db' = events_of b sample_db_finished)
    ∧ lesson_blocks db' = lesson_blocks sample_db_finished
    ∧ neuro_profiles db' = neuro_profiles sample_db_finished
    ∧ block_indices db' = block_indices sample_db_finished.
Proof.
  apply (create_event_records_row 50 sample_orphan sample_db_finished).
  apply (bool_decide_unpack _). vm_compute. exact I.
Defined.

(** X10. A block that [start_block] has just made cannot be finished:
    for a known student, a free block id and no event naming that id,
    [start_block] answers with the id and adds the unfinished block with
    its student and starting time, and [finish_block] on it fails with
    400 "no events". Once [create_event] has recorded an event for the
    block, the events fetched for it are that one event, and
    [finish_block] goes on to the Metrics Aggregator. *)
Theorem started_block_needs_an_event
    (compute_block_metrics : list TaskEvent → error + metrics)
    (normalize_time : float → option float → error + float)
    (students : gset uuid) (block_id : uuid) (now later : datetime)
    (student : uuid) (db : database) :
  student ∈ students →
  lesson_blocks db !! block_id = None →
  events_of block_id db = [] →
  ∃ db1,
    start_block students block_id now student db = (inr block_id, db1)
    ∧ lesson_blocks db1 !! block_id
      = Some {| student_id := Some student; started_at := Some now;
                finished_at := None |}
    ∧ finish_request compute_block_metrics normalize_time block_id later db1
      = (inl (HTTPException 400 "no events"), db1,
         [QueryLessonBlock; QueryTaskEvents])
    ∧ (∀ new_id data,
         new_id ∉ id <$> task_events db1 →
         ec_lesson_block_id data = Some block_id →
         ∃ db2,
           create_event new_id data db1 = (inr "ok", db2)
           ∧ events_of block_id db2 = [event_row new_id data]
           ∧ [QueryLessonBlock; QueryTaskEvents; ComputeBlockMetrics]
               `prefix_of`
               (finish_request compute_block_metrics normalize_time
                  block_id later db2).2).
Proof.
  intros Hs Hb He. unfold start_block.
  rewrite decide_True by done. rewrite Hb.
  set (db1 := {| lesson_blocks :=
                   <[block_id := {| student_id := Some student;
                                    started_at := Some now;
                                    finished_at := None |}]> (lesson_blocks db);
                 task_events := task_events db;
                 neuro_profiles := neuro_profiles db;
                 block_indices := block_indices db |}).
  assert (lesson_blocks db1 !! block_id
          = Some {| student_id := Some student; started_at := Some now;
                    finished_at := None |}) as Hb1
    by (simpl; by rewrite lookup_insert_eq).
  exists db1. split; [done|]. split; [done|]. split.
  - by eapply PipelineFacts.finish_no_events.
  - intros new_id data Hfresh Hdata.
    unfold create_event. rewrite decide_False by done.
    set (db2 := {| lesson_blocks := lesson_blocks db1;
                   task_events := task_events db1 ++ [event_row new_id data];
                   neuro_profiles := neuro_profiles db1;
                   block_indices := block_indices db1 |}).
    assert (events_of block_id db2 = [event_row new_id data]) as Hev.
    { unfold events_of at 1. cbn [db2 task_events].
      rewrite events_of_app. change (events_of block_id db1)
        with (events_of block_id db). rewrite He.
      by rewrite filter_cons_True. }
    exists db2. split; [done|]. split; [done|].
    eapply FinishEdges.finish_reaches_metrics; [exact Hb1|].
    by rewrite Hev.
Qed.

(** X10, witness: student 1 starts block 12 in the sample tables. *)
Lemma started_block_needs_an_event_witness :
  ∃ db1,
    start_block {[ 1%N ]} 12 3000 1 sample_db = (inr 12%N, db1)
    ∧ lesson_blocks db1 !! 12%N
      = Some {| student_id := Some 1%N; started_at := Some 3000%Z;
                finished_at := None |}
    ∧ sample_finish 12 4000 db1
      = (inl (HTTPException 400 "no events"), db1,
         [QueryLessonBlock; QueryTaskEvents])
    ∧ (∀ new_id data,
         new_id ∉ id <$> task_events db1 →
         ec_lesson_block_id data = Some 12%N →
         ∃ db2,
           create_event new_id data db1 = (inr "ok", db2)
           ∧ events_of 12 db2 = [event_row new_id data]
           ∧ [QueryLessonBlock; QueryTaskEvents; ComputeBlockMetrics]
               `prefix_of` (sample_finish 12 4000 db2).2).
Proof.
  apply (started_block_needs_an_event (compute_block_metrics_model 600)
           normalize_time_model {[ 1%N ]} 12 3000 4000 1 sample_db).
  - apply (bool_decide_unpack _). vm_compute. exact I.
  - vm_compute. reflexivity.
  - vm_compute. reflexivity.
Defined.

End IntakeFacts.

(** ** What the participants of a board are sent *)

Module DeliveryFacts.
Import Board Delivery BoardFacts.

(** *** Participant lists and inboxes after a transition *)

Lemma participants_insert sid s conns (m : gmap string (list websocket))
    states w :
  participants s (Hub (<[sid := conns]> m) states w)
  = if decide (sid = s) then conns else participants s (Hub m states w).
Proof.
  unfold participants. simpl. rewrite lookup_insert.
  by destruct (decide (sid = s)).
Qed.

Lemma participants_conns s h states w :
  participants s (Hub (board_connections h) states w) = participants s h.
Proof. done. Qed.

Lemma inbox_extend ws h conns states w :
  inbox ws (Hub conns states (wire h ++ w))
  = inbox ws h ++ inbox ws (Hub ∅ ∅ w).
Proof. unfold inbox. simpl. by rewrite filter_app, fmap_app. Qed.

Lemma unregistered_alt ws h :
  unregistered ws h ↔ ∀ sid, ws ∉ participants sid h.
Proof.
  split; [intros Hws sid; by apply unregistered_not_participant|].
  intros Hws sid conns Hc. specialize (Hws sid).
  unfold participants in Hws. by rewrite Hc in Hws.
Qed.

(** *** One board per websocket *)

Lemma empty_exclusive : exclusive empty_hub.
Proof.
  intros sid sid' ws Hws. unfold participants in Hws. simpl in Hws.
  rewrite lookup_empty in Hws. by apply elem_of_nil in Hws.
Qed.

Lemma step_exclusive e h h' :
  consistent h → exclusive h → step e h = Some h' → exclusive h'.
Proof.
  intros Hh Hex Hstep. pose proof (step_guard _ _ _ Hstep) as Hg.
  destruct e as [sid p|sid p data|sid p].
  - rewrite step_connect in Hstep by done. simplify_eq.
    rewrite unregistered_alt in Hg.
    intros s1 s2 ws. rewrite !participants_insert, !participants_conns.
    destruct (decide (sid = s1)) as [<-|H1], (decide (sid = s2)) as [<-|H2];
      try done.
    + rewrite elem_of_app, list_elem_of_singleton.
      intros [Hws| ->] Hws2; [by apply (Hex sid s2 ws)|by destruct (Hg s2)].
    + rewrite elem_of_app, list_elem_of_singleton.
      intros Hws1 [Hws| ->]; [by apply (Hex s1 sid ws)|by destruct (Hg s1)].
    + apply Hex.
  - rewrite step_receive in Hstep by done. simplify_eq.
    intros s1 s2 ws. rewrite !participants_conns. apply Hex.
  - rewrite step_disconnect in Hstep by done. simplify_eq.
    intros s1 s2 ws. rewrite !participants_insert, !participants_conns.
    destruct (decide (sid = s1)) as [<-|H1], (decide (sid = s2)) as [<-|H2];
      try done; rewrite ?list_elem_of_filter.
    + intros [_ Hws] Hws2. by apply (Hex sid s2 ws).
    + intros Hws1 [_ Hws]. by apply (Hex s1 sid ws).
    + apply Hex.
Qed.

Lemma run_exclusive es h h' :
  consistent h → exclusive h → run es h = Some h' → exclusive h'.
Proof.
  revert h. induction es as [|e es IH]; intros h Hh Hex; simpl.
  - by intros [= <-].
  - destruct (step e h) as [h1|] eqn:Hstep; simpl; [|done].
    apply IH; [by eapply step_consistent|by eapply step_exclusive].
Qed.

(** *** What a registered participant is sent *)

Lemma relayed_cons sid ws e es :
  relayed sid ws (e :: es) = relayed sid ws [e] ++ relayed sid ws es.
Proof.
  destruct e as [sid' p|sid' p data|sid' p]; simpl; try done.
  by destruct (decide (sid' = sid ∧ p ≠ ws)).
Qed.

Lemma step_inbox_registered sid ws e h h' :
  consistent h → exclusive h →
  ws ∈ participants sid h →
  ws ∉ disconnecting [e] →
  step e h = Some h' →
  inbox ws h' = inbox ws h ++ relayed sid ws [e]
  ∧ ws ∈ participants sid h'.
Proof.
  intros Hh Hex Hws Hstay Hstep. pose proof (step_guard _ _ _ Hstep) as Hg.
  destruct e as [sid' p|sid' p data|sid' p].
  - rewrite step_connect in Hstep by done. simplify_eq.
    assert (ws ≠ p) as Hne.
    { intros ->. by apply (unregistered_not_participant sid p h). }
    split.
    + rewrite inbox_extend, inbox_replay. by rewrite decide_False.
    + rewrite participants_insert, participants_conns.
      destruct (decide (sid' = sid)) as [->|]; [|done].
      rewrite elem_of_app. by left.
  - rewrite step_receive in Hstep by done. simplify_eq.
    split; [|done].
    rewrite inbox_extend, inbox_broadcast
      by by apply NoDup_filter, participants_NoDup.
    f_equal. simpl.
    destruct (decide (sid' = sid ∧ p ≠ ws)) as [[-> Hp]|Hno].
    + rewrite decide_True; [done|]. apply list_elem_of_filter. by split.
    + rewrite decide_False; [done|]. rewrite list_elem_of_filter.
      intros [Hp Hws']. apply Hno. split; [|done].
      by apply (Hex sid' sid ws).
  - rewrite step_disconnect in Hstep by done. simplify_eq.
    assert (ws ≠ p) as Hne.
    { intros ->. apply Hstay. simpl. by left. }
    split; [simpl; by rewrite app_nil_r|].
    rewrite participants_insert, participants_conns.
    destruct (decide (sid' = sid)) as [->|]; [|done].
    apply list_elem_of_filter. by split.
Qed.

Lemma disconnecting_cons e es ws :
  ws ∉ disconnecting (e :: es) →
  (ws ∉ disconnecting [e]) ∧ (ws ∉ disconnecting es).
Proof.
  unfold disconnecting.
  destruct e as [sid p|sid p data|sid p]; simpl.
  - intros Hes. split; [apply not_elem_of_nil|done].
  - intros Hes. split; [apply not_elem_of_nil|done].
  - rewrite !not_elem_of_cons. intros [Hne Hes].
    split; [|done]. split; [done|apply not_elem_of_nil].
Qed.

Lemma run_inbox_registered sid ws es h h' :
  consistent h → exclusive h →
  ws ∈ participants sid h →
  ws ∉ disconnecting es →
  run es h = Some h' →
  inbox ws h' = inbox ws h ++ relayed sid ws es
  ∧ ws ∈ participants sid h'.
Proof.
  revert h. induction es as [|e es IH]; intros h Hh Hex Hws Hstay.
  - intros [= <-]. simpl. by rewrite app_nil_r.
  - apply disconnecting_cons in Hstay as [He Hes].
    simpl run. destruct (step e h) as [h1|] eqn:Hstep; [|done].
    intros Hrun.
    destruct (step_inbox_registered sid ws e h h1) as [Hin1 Hws1]; try done.
    destruct (IH h1) as [Hin2 Hws2]; try done.
    { by eapply step_consistent. }
    { by eapply step_exclusive. }
    split; [|done].
    by rewrite Hin2, Hin1, (relayed_cons sid ws e es), <-app_assoc.
Qed.

(** X11. From the moment it joins a board until it disconnects, a
    participant is sent the board's history as it was when it joined,
    then every action the relay receives for this board from another
    participant, clears included, each once and in the order of arrival.
    It is sent none of its own actions and nothing of any other board. *)
Theorem participant_is_sent_the_board (es es' : list event) (h h' : hub)
    (sid : string) (ws : websocket) :
  run es empty_hub = Some h →
  run (Connect sid ws :: es') h = Some h' →
  ws ∉ disconnecting es' →
  inbox ws h' = inbox ws h ++ history sid h ++ relayed sid ws es'
  ∧ ws ∈ participants sid h'.
Proof.
  intros Hrun Hrun' Hstay.
  pose proof (reachable_consistent _ _ Hrun) as Hh.
  pose proof (run_exclusive _ _ _ empty_consistent empty_exclusive Hrun)
    as Hex.
  change (run (Connect sid ws :: es') h)
    with (step (Connect sid ws) h ≫= run es') in Hrun'.
  destruct (step (Connect sid ws) h) as [h1|] eqn:Hstep; [|done].
  simpl in Hrun'.
  pose proof (step_guard _ _ _ Hstep) as Hun.
  pose proof (step_consistent _ _ _ Hh Hstep) as Hh1.
  pose proof (step_exclusive _ _ _ Hh Hex Hstep) as Hex1.
  rewrite step_connect in Hstep by done. injection Hstep as Hdef.
  assert (ws ∈ participants sid h1) as Hws1.
  { rewrite <-Hdef, participants_insert, decide_True by done.
    rewrite elem_of_app, list_elem_of_singleton. by right. }
  assert (inbox ws h1 = inbox ws h ++ history sid h) as Hin1.
  { rewrite <-Hdef, inbox_extend, inbox_replay. by rewrite decide_True. }
  destruct (run_inbox_registered sid ws es' h1 h') as [Hin Hws]; try done.
  split; [|done]. by rewrite Hin, Hin1, <-app_assoc.
Qed.

(** X11, witness: participant 2 joins board "S" after two actions and
    stays while the others draw, board "T" is used and participant 3
    joins and clears. *)
Lemma participant_is_sent_the_board_witness :
  inbox 2 hub_after_join
  = inbox 2 hub_two_strokes ++ history "S" hub_two_strokes
    ++ relayed "S" 2 after_join
  ∧ 2%nat ∈ participants "S" hub_after_join.
Proof.
  apply (participant_is_sent_the_board two_strokes after_join
           hub_two_strokes hub_after_join "S" 2).
  - vm_compute. reflexivity.
  - vm_compute. reflexivity.
  - apply (bool_decide_unpack _). vm_compute. exact I.
Defined.

(** The same run, evaluated. *)
Example participant_two_inbox :
  inbox 2 hub_after_join = [stroke_start; stroke_draw; zoom; clear].
Proof. vm_compute. reflexivity. Qed.

(** *** What a websocket that is not registered is sent *)






(** *** Where the actions on the wire come from *)

Lemma received_cons e es : received (e :: es) = received [e] ++ received es.
Proof. by destruct e. Qed.

Lemma history_states s h conns w :
  history s (Hub conns (board_states h) w) = history s h.
Proof. done. Qed.

Lemma history_insert_case sid s actions h conns w :
  history s (Hub conns (<[sid := actions]> (board_states h)) w)
  = if decide (sid = s) then actions else history s h.
Proof.
  unfold history. simpl. rewrite lookup_insert.
  by destruct (decide (sid = s)).
Qed.

Lemma step_known (known : list action) e h h' :
  consistent h →
  (∀ ws a, (ws, a) ∈ wire h → a ∈ known) →
  (∀ s a, a ∈ history s h → a ∈ known) →
  step e h = Some h' →
  (∀ ws a, (ws, a) ∈ wire h' → a ∈ known ++ received [e])
  ∧ (∀ s a, a ∈ history s h' → a ∈ known ++ received [e]).
Proof.
  intros Hh Hwire Hhist Hstep. pose proof (step_guard _ _ _ Hstep) as Hg.
  destruct e as [sid p|sid p data|sid p].
  - rewrite step_connect in Hstep by done. simplify_eq. simpl.
    rewrite app_nil_r. split.
    + intros ws a. rewrite elem_of_app, list_elem_of_fmap.
      intros [Hin|(a' & [= -> ->] & Hin)]; [by eapply Hwire|by eapply Hhist].
    + intros s a. rewrite history_insert_case.
      destruct (decide (sid = s)); apply Hhist.
  - rewrite step_receive in Hstep by done. simplify_eq. simpl. split.
    + intros ws a. rewrite !elem_of_app, list_elem_of_fmap.
      intros [Hin|(c & [= -> ->] & Hin)]; [left; by eapply Hwire|].
      right. by apply list_elem_of_singleton.
    + intros s a. rewrite history_insert_case, elem_of_app.
      destruct (decide (sid = s)) as [<-|]; [|left; by eapply Hhist].
      destruct (is_clear data); [by rewrite elem_of_nil|].
      rewrite elem_of_app. intros [Hin|Hin]; [left; by eapply Hhist|by right].
  - rewrite step_disconnect in Hstep by done. simplify_eq. simpl.
    rewrite app_nil_r. split; [done|].
    intros s a. rewrite history_states. apply Hhist.
Qed.

Lemma run_known (known : list action) es h h' :
  consistent h →
  (∀ ws a, (ws, a) ∈ wire h → a ∈ known) →
  (∀ s a, a ∈ history s h → a ∈ known) →
  run es h = Some h' →
  (∀ ws a, (ws, a) ∈ wire h' → a ∈ known ++ received es)
  ∧ (∀ s a, a ∈ history s h' → a ∈ known ++ received es).
Proof.
  revert known h. induction es as [|e es IH]; intros known h Hh Hwire Hhist.
  - intros [= <-]. simpl. by rewrite app_nil_r.
  - simpl run. destruct (step e h) as [h1|] eqn:Hstep; [|done].
    intros Hrun. rewrite received_cons, app_assoc.
    destruct (step_known known e h h1) as [Hwire1 Hhist1]; try done.
    apply (IH (known ++ received [e]) h1); try done.
    by eapply step_consistent.
Qed.

(** X13. The relay makes up no action and alters none: every action it
    has put on the wire, replayed or live, and every action it keeps in a
    history is an action it has received, as it was received. *)
Theorem relay_sends_what_it_received (es : list event) (h : hub) :
  run es empty_hub = Some h →
  (∀ ws a, (ws, a) ∈ wire h → a ∈ received es)
  ∧ (∀ s a, a ∈ history s h → a ∈ received es).
Proof.
  intros Hrun.
  apply (run_known [] es empty_hub h); [apply empty_consistent| | |done].
  - intros ws a. simpl. by rewrite elem_of_nil.
  - intros s a. unfold history. simpl. rewrite lookup_empty. simpl.
    by rewrite elem_of_nil.
Qed.

(** X13, witness: the busy relay. *)
Lemma relay_sends_what_it_received_witness :
  (∀ ws a, (ws, a) ∈ wire hub_busy → a ∈ received busy)
  ∧ (∀ s a, a ∈ history s hub_busy → a ∈ received busy).
Proof.
  apply (relay_sends_what_it_received busy hub_busy).
  vm_compute. reflexivity.
Defined.

End DeliveryFacts.

(** ** The board relay, await by await *)

Module RelayFacts.
Import Board Relay.

#[local] Close Scope float_scope.

(** *** The iterators *)

Lemma first_other_None me conns i :
  first_other me conns i = None → filter (λ c, c ≠ me) conns = [].
Proof.
  revert i. induction conns as [|c conns IH]; intros i; simpl; [done|].
  destruct (decide (c ≠ me)) as [Hc|Hc]; [done|].
  intros Hnone. rewrite filter_cons_False by done. by eapply IH.
Qed.

Lemma first_other_Some me conns i c n :
  first_other me conns i = Some (c, n) →
  ∃ k, n = i + S k ∧ c ≠ me
       ∧ filter (λ c, c ≠ me) conns
         = c :: filter (λ c, c ≠ me) (drop (S k) conns).
Proof.
  revert i. induction conns as [|c' conns IH]; intros i; simpl; [done|].
  destruct (decide (c' ≠ me)) as [Hc|Hc].
  - intros [= -> <-]. exists 0. split; [lia|]. split; [done|].
    by rewrite filter_cons_True, drop_0.
  - intros Hsome. destruct (IH _ Hsome) as (k & -> & Hne & Hfilter).
    exists (S k). split; [lia|]. split; [done|].
    by rewrite filter_cons_False.
Qed.

(** What is left of a broadcast that has got to index [next]. *)
Lemma resume_broadcast_spec sid data me next conns :
  match resume_broadcast sid data me next conns with
  | Broadcasting sid' data' c n =>
      sid' = sid ∧ data' = data ∧ c ≠ me
      ∧ filter (λ c, c ≠ me) (drop next conns)
        = c :: filter (λ c, c ≠ me) (drop n conns)
  | Waiting sid' => sid' = sid ∧ filter (λ c, c ≠ me) (drop next conns) = []
  | Replaying _ _ _ _ => False
  end.
Proof.
  unfold resume_broadcast.
  destruct (first_other me (drop next conns) next) as [[c n]|] eqn:Hf.
  - destruct (first_other_Some _ _ _ _ _ Hf) as (k & -> & Hne & Hfilter).
    repeat split; [done|]. by rewrite Hfilter, drop_drop.
  - split; [done|]. by eapply first_other_None.
Qed.

(** What is left of a replay that has got to index [next]. *)
Lemma resume_replay_spec sid lid next ls l :
  ls !! lid = Some l →
  match resume_replay sid lid next ls with
  | Replaying sid' lid' a n =>
      sid' = sid ∧ lid' = lid ∧ n = S next ∧ drop next l = a :: drop n l
  | Waiting sid' => sid' = sid ∧ drop next l = []
  | Broadcasting _ _ _ _ => False
  end.
Proof.
  intros Hl. unfold resume_replay. rewrite Hl. simpl.
  destruct (l !! next) as [a|] eqn:Ha.
  - repeat split. by apply drop_S.
  - split; [done|]. apply drop_ge. by apply lookup_ge_None.
Qed.

(** *** A loop that nothing interrupts *)

Lemma sent_replaying ws sid lid a next c s ls hs w :
  hs !! ws = Some (Replaying sid lid a next) →
  step (Sent ws Delivered) (Relay c s ls hs w)
  = Some (Relay c s ls (<[ws := resume_replay sid lid next ls]> hs)
                (w ++ [(ws, a)])).
Proof. intros Hf. cbn [step]. unfold sent. cbn [handlers]. by rewrite Hf. Qed.

Lemma sent_broadcasting ws sid data t next conns c s ls hs w :
  hs !! ws = Some (Broadcasting sid data t next) →
  c !! sid = Some conns →
  step (Sent ws Delivered) (Relay c s ls hs w)
  = Some (Relay c s ls (<[ws := resume_broadcast sid data ws next conns]> hs)
                (w ++ [(t, data)])).
Proof.
  intros Hf Hc. cbn [step]. unfold sent. cbn [handlers]. rewrite Hf.
  cbn [mbind option_bind board_connections]. by rewrite Hc.
Qed.

(** The replay from a suspended send to its end, when the handler is
    resumed each time with its send completed. *)
Lemma replay_rest ws sid lid l c s ls :
  ls !! lid = Some l →
  ∀ k a next hs w,
    hs !! ws = Some (Replaying sid lid a next) →
    length (drop next l) = k →
    run (replicate (S k) (Sent ws Delivered)) (Relay c s ls hs w)
    = Some (Relay c s ls (<[ws := Waiting sid]> hs)
                  (w ++ ((λ a, (ws, a)) <$> a :: drop next l))).
Proof.
  intros Hl. induction k as [|k IH]; intros a next hs w Hf Hk;
    change (replicate (S ?n) ?x) with (x :: replicate n x); cbn [run];
    rewrite (sent_replaying _ _ _ _ _ _ _ _ _ _ Hf); cbn [mbind option_bind];
    pose proof (resume_replay_spec sid lid next ls l Hl) as Hres.
  - apply nil_length_inv in Hk.
    destruct (resume_replay _ _ _ _) as [? ? a' n|sid'|];
      [destruct Hres as (_ & _ & _ & Hd); by rewrite Hk in Hd| |done].
    destruct Hres as [-> _]. by rewrite Hk.
  - destruct (resume_replay _ _ _ _) as [sid' lid' a' n|sid'|];
      [|destruct Hres as [_ Hd]; by rewrite Hd in Hk|done].
    destruct Hres as (-> & -> & -> & Hd).
    rewrite (IH a' (S next)); [| |by rewrite Hd in Hk; simplify_eq/=].
    + rewrite insert_insert_eq, Hd. simpl. by rewrite <-app_assoc.
    + by rewrite lookup_insert_eq.
Qed.

(** The broadcast from a suspended send to its end, likewise, the
    participant list staying as it is. *)
Lemma broadcast_rest ws sid data conns c s ls :
  c !! sid = Some conns →
  ∀ k t next hs w,
    hs !! ws = Some (Broadcasting sid data t next) →
    length (filter (λ c, c ≠ ws) (drop next conns)) = k →
    run (replicate (S k) (Sent ws Delivered)) (Relay c s ls hs w)
    = Some (Relay c s ls (<[ws := Waiting sid]> hs)
                  (w ++ ((λ c, (c, data))
                         <$> t :: filter (λ c, c ≠ ws) (drop next conns)))).
Proof.
  intros Hc. induction k as [|k IH]; intros t next hs w Hf Hk;
    change (replicate (S ?n) ?x) with (x :: replicate n x); cbn [run];
    rewrite (sent_broadcasting _ _ _ _ _ _ _ _ _ _ _ Hf Hc);
    cbn [mbind option_bind];
    pose proof (resume_broadcast_spec sid data ws next conns) as Hres.
  - apply nil_length_inv in Hk.
    destruct (resume_broadcast _ _ _ _ _) as [|sid'|? ? t' n];
      [done| |destruct Hres as (_ & _ & _ & Hd); by rewrite Hk in Hd].
    destruct Hres as [-> _]. by rewrite Hk.
  - destruct (resume_broadcast _ _ _ _ _) as [|sid'|sid' data' t' n];
      [done|destruct Hres as [_ Hd]; by rewrite Hd in Hk|].
    destruct Hres as (-> & -> & _ & Hd).
    rewrite (IH t' n); [| |by rewrite Hd in Hk; simplify_eq/=].
    + rewrite insert_insert_eq, Hd. simpl. by rewrite <-app_assoc.
    + by rewrite lookup_insert_eq.
Qed.

(** *** The invariant *)

Lemma empty_sound : sound empty_relay.
Proof.
  split; simpl.
  - by rewrite !dom_empty_L.
  - intros sid lid. by rewrite lookup_empty.
  - intros sid sid' lid. by rewrite lookup_empty.
  - intros ws f. by rewrite lookup_empty.
  - intros ws sid data c next. by rewrite lookup_empty.
Qed.

(** A handler moves on, or ends; messages are sent. *)
Lemma sound_handler r ws f w :
  sound r →
  match f with
  | Replaying sid _ _ _ | Waiting sid =>
      sid ∈ dom (board_connections r)
  | Broadcasting sid _ c _ =>
      sid ∈ dom (board_connections r) ∧ c ≠ ws
  end →
  sound (Relay (board_connections r) (board_states r) (lists r)
               (<[ws := f]> (handlers r)) w).
Proof.
  intros [H1 H2 H3 H4 H5] Hf. split; simpl; try done.
  - intros ws' f' Hf'. rewrite lookup_insert in Hf'.
    case_decide; [|by apply (H4 ws' f')].
    simplify_eq. by destruct f' as [| |]; [| |destruct Hf].
  - intros ws' sid data c next Hf'. rewrite lookup_insert in Hf'.
    case_decide; [|by eapply H5]. simplify_eq. by destruct Hf.
Qed.

Lemma sound_ended r ws :
  sound r →
  sound (Relay (board_connections r) (board_states r) (lists r)
               (delete ws (handlers r)) (wire r)).
Proof.
  intros [H1 H2 H3 H4 H5]. split; simpl; try done.
  - intros ws' f' Hf. apply lookup_delete_Some in Hf as [_ Hf].
    by apply (H4 ws' f').
  - intros ws' sid data c next Hf. apply lookup_delete_Some in Hf as [_ Hf].
    by eapply H5.
Qed.

(** The participant list of a board changes. *)
Lemma sound_participants r sid conns :
  sound r →
  sid ∈ dom (board_connections r) →
  sound (Relay (<[sid := conns]> (board_connections r)) (board_states r)
               (lists r) (handlers r) (wire r)).
Proof.
  intros [H1 H2 H3 H4 H5] Hsid.
  assert (dom (<[sid := conns]> (board_connections r))
          = dom (board_connections r)) as Hdom.
  { rewrite dom_insert_L. apply subseteq_union_1_L.
    by apply singleton_subseteq_l. }
  split; simpl; try done.
  - by rewrite Hdom.
  - intros ws f Hf. rewrite Hdom. by apply (H4 ws f).
Qed.

(** A board is bound to a new, empty list. *)
Lemma sound_new_list r sid conns :
  sound r →
  dom conns = {[sid]} ∪ dom (board_connections r) →
  sound (Relay conns (<[sid := length (lists r)]> (board_states r))
               (lists r ++ [[]]) (handlers r) (wire r)).
Proof.
  intros [H1 H2 H3 H4 H5] Hdom. split; simpl; try done.
  - by rewrite Hdom, dom_insert_L, H1.
  - intros s lid. rewrite length_app, lookup_insert. simpl.
    case_decide; [intros [= <-]; lia|]. intros Hs%H2. lia.
  - intros s1 s2 lid. rewrite !lookup_insert.
    repeat case_decide; subst; try done.
    + intros [= <-] Hs%H2. lia.
    + intros Hs%H2 [= <-]. lia.
    + apply H3.
  - intros ws f Hf. specialize (H4 ws f Hf). rewrite Hdom.
    destruct f; apply elem_of_union; by right.
Qed.

(** An action is appended to a list. *)
Lemma sound_appended r lid l :
  sound r →
  sound (Relay (board_connections r) (board_states r)
               (<[lid := l]> (lists r)) (handlers r) (wire r)).
Proof.
  intros [H1 H2 H3 H4 H5]. split; simpl; try done.
  intros s lid'. rewrite length_insert. apply H2.
Qed.

(** *** The transitions in closed form *)

Lemma sound_lookups r sid :
  sound r →
  sid ∈ dom (board_connections r) →
  ∃ conns lid l,
    board_connections r !! sid = Some conns
    ∧ board_states r !! sid = Some lid
    ∧ lists r !! lid = Some l.
Proof.
  intros Hr Hsid. pose proof Hsid as Hsid'.
  rewrite (same_boards r Hr) in Hsid'.
  apply elem_of_dom in Hsid as [conns Hc].
  apply elem_of_dom in Hsid' as [lid Hlid].
  destruct (lookup_lt_is_Some_2 (lists r) lid) as [l Hl];
    [by eapply lists_exist|].
  by exists conns, lid, l.
Qed.

Lemma accept_old sid ws r conns lid l :
  board_connections r !! sid = Some conns →
  board_states r !! sid = Some lid →
  lists r !! lid = Some l →
  accept sid ws r
  = Some (Relay (<[sid := conns ++ [ws]]> (board_connections r))
                (board_states r) (lists r)
                (<[ws := resume_replay sid lid 0 (lists r)]> (handlers r))
                (wire r)).
Proof.
  intros Hc Hlid Hl. unfold accept. rewrite Hc.
  cbn [mbind option_bind]. rewrite Hc. cbn [mbind option_bind].
  rewrite Hlid. cbn [mbind option_bind]. by rewrite Hl.
Qed.

Lemma accept_new sid ws r :
  board_connections r !! sid = None →
  accept sid ws r
  = Some (Relay (<[sid := [ws]]> (board_connections r))
                (<[sid := length (lists r)]> (board_states r))
                (lists r ++ [[]])
                (<[ws := Waiting sid]> (handlers r)) (wire r)).
Proof.
  intros Hc. unfold accept. rewrite Hc.
  cbn [board_connections board_states lists handlers wire].
  rewrite !lookup_insert_eq. cbn [mbind option_bind].
  rewrite list_lookup_middle by done. cbn [mbind option_bind].
  rewrite insert_insert_eq. unfold resume_replay.
  by rewrite list_lookup_middle.
Qed.

Lemma message_clear sid ws data r conns :
  is_clear data = true →
  board_connections r !! sid = Some conns →
  message sid ws data r
  = Some (Relay (board_connections r)
                (<[sid := length (lists r)]> (board_states r))
                (lists r ++ [[]])
                (<[ws := resume_broadcast sid data ws 0 conns]> (handlers r))
                (wire r)).
Proof.
  intros Hd Hc. unfold message. rewrite Hd. cbn [mbind option_bind].
  by rewrite Hc.
Qed.

Lemma message_append sid ws data r conns lid l :
  is_clear data = false →
  board_connections r !! sid = Some conns →
  board_states r !! sid = Some lid →
  lists r !! lid = Some l →
  message sid ws data r
  = Some (Relay (board_connections r) (board_states r)
                (<[lid := l ++ [data]]> (lists r))
                (<[ws := resume_broadcast sid data ws 0 conns]> (handlers r))
                (wire r)).
Proof.
  intros Hd Hc Hlid Hl. unfold message. rewrite Hd, Hlid.
  cbn [mbind option_bind]. rewrite Hl. cbn [mbind option_bind].
  by rewrite Hc.
Qed.

Lemma resume_replay_board sid lid next ls :
  match resume_replay sid lid next ls with
  | Replaying sid' _ _ _ | Waiting sid' => sid' = sid
  | Broadcasting _ _ _ _ => False
  end.
Proof. unfold resume_replay. by destruct (ls !! lid ≫= _). Qed.

Lemma unregister_sound sid ws r r' :
  sound r → unregister sid ws r = Some r' → sound r'.
Proof.
  intros Hr. unfold unregister.
  destruct (board_connections r !! sid) as [conns|] eqn:Hc; [|done].
  cbn [mbind option_bind].
  destruct (list_remove ws conns) as [conns'|]; intros [= <-].
  - refine (sound_ended (Relay (<[sid := conns']> (board_connections r))
                               (board_states r) (lists r) (handlers r)
                               (wire r)) ws _).
    apply sound_participants; [done|]. apply elem_of_dom. by eexists.
  - by apply sound_ended.
Qed.

Lemma step_sound e r r' : sound r → step e r = Some r' → sound r'.
Proof.
  intros Hr. destruct e as [sid ws|sid ws data|ws|ws o]; cbn [step].
  - case_decide; [|done].
    destruct (board_connections r !! sid) as [conns|] eqn:Hc.
    + destruct (sound_lookups r sid Hr) as (conns' & lid & l & ? & Hlid & Hl);
        [apply elem_of_dom; by eexists|].
      rewrite (accept_old _ _ _ _ _ _ Hc Hlid Hl). intros [= <-].
      refine (sound_handler
               (Relay (<[sid := conns ++ [ws]]> (board_connections r))
                      (board_states r) (lists r) (handlers r) (wire r))
               ws _ (wire r) _ _).
      * apply sound_participants; [done|]. apply elem_of_dom. by eexists.
      * pose proof (resume_replay_board sid lid 0 (lists r)) as Hres.
        cbn [board_connections].
        destruct (resume_replay _ _ _ _); try done; subst;
          rewrite dom_insert_L; apply elem_of_union; left;
          by apply elem_of_singleton.
    + rewrite (accept_new _ _ _ Hc). intros [= <-].
      refine (sound_handler
               (Relay (<[sid := [ws]]> (board_connections r))
                      (<[sid := length (lists r)]> (board_states r))
                      (lists r ++ [[]]) (handlers r) (wire r))
               ws (Waiting sid) (wire r) _ _).
      * apply sound_new_list; [done|]. by rewrite dom_insert_L.
      * cbn [board_connections]. rewrite dom_insert_L.
        apply elem_of_union; left. by apply elem_of_singleton.
  - destruct (handlers r !! ws) as [[| sid'|]|] eqn:Hf; try done.
    case_decide; [subst|done].
    pose proof (frames_board r Hr ws _ Hf) as Hsid. cbn in Hsid.
    destruct (sound_lookups r sid Hr Hsid) as (conns & lid & l & Hc & Hlid & Hl).
    pose proof (resume_broadcast_spec sid data ws 0 conns) as Hres.
    destruct (is_clear data) eqn:Hd.
    + rewrite (message_clear _ _ _ _ _ Hd Hc). intros [= <-].
      refine (sound_handler
               (Relay (board_connections r)
                      (<[sid := length (lists r)]> (board_states r))
                      (lists r ++ [[]]) (handlers r) (wire r))
               ws _ (wire r) _ _).
      * apply sound_new_list; [done|]. symmetry.
        apply subseteq_union_1_L. by apply singleton_subseteq_l.
      * cbn [board_connections].
        destruct (resume_broadcast _ _ _ _ _); try done;
          destruct Hres as (-> & ?); [done|]. by destruct_and!.
    + rewrite (message_append _ _ _ _ _ _ _ Hd Hc Hlid Hl). intros [= <-].
      refine (sound_handler
               (Relay (board_connections r) (board_states r)
                      (<[lid := l ++ [data]]> (lists r)) (handlers r)
                      (wire r))
               ws _ (wire r) _ _).
      * by apply sound_appended.
      * cbn [board_connections].
        destruct (resume_broadcast _ _ _ _ _); try done;
          destruct Hres as (-> & ?); [done|]. by destruct_and!.
  - destruct (handlers r !! ws) as [[| sid'|]|] eqn:Hf; try done.
    by apply unregister_sound.
  - unfold sent. destruct (handlers r !! ws) as [f|] eqn:Hf; [|done].
    cbn [mbind option_bind].
    pose proof (frames_board r Hr ws _ Hf) as Hsid.
    destruct f as [sid lid a next|sid|sid data c next]; [|done|].
    + destruct o; try (intros [= <-]; by apply sound_ended).
      intros [= <-]. apply sound_handler; [done|].
      pose proof (resume_replay_board sid lid next (lists r)) as Hres.
      by destruct (resume_replay _ _ _ _); subst.
    + destruct o.
      * destruct (board_connections r !! sid) as [conns|] eqn:Hc; [|done].
        cbn [mbind option_bind]. intros [= <-].
        apply sound_handler; [done|].
        pose proof (resume_broadcast_spec sid data ws next conns) as Hres.
        destruct (resume_broadcast _ _ _ _ _); try done;
          destruct Hres as (-> & ?); [done|]. by destruct_and!.
      * by apply unregister_sound.
      * intros [= <-]. by apply sound_ended.
Qed.

Lemma run_sound es r r' : sound r → run es r = Some r' → sound r'.
Proof.
  revert r. induction es as [|e es IH]; intros r Hr; cbn [run].
  - by intros [= <-].
  - destruct (step e r) as [r1|] eqn:Hstep; [|done].
    cbn [mbind option_bind]. apply IH. by eapply step_sound.
Qed.

Lemma reachable_sound es r : run es empty_relay = Some r → sound r.
Proof. apply run_sound, empty_sound. Qed.

(** *** Histories *)

Lemma history_same sid r r' :
  board_states r' = board_states r → lists r' = lists r →
  history sid r' = history sid r.
Proof. unfold history. by intros -> ->. Qed.

Lemma history_new_list sid sid' r c hs w :
  sound r →
  history sid (Relay c (<[sid' := length (lists r)]> (board_states r))
                     (lists r ++ [[]]) hs w)
  = if decide (sid' = sid) then [] else history sid r.
Proof.
  intros Hr. unfold history. cbn [board_states lists].
  destruct (decide (sid' = sid)) as [->|Hne].
  - rewrite lookup_insert_eq. cbn [mbind option_bind].
    by rewrite list_lookup_middle.
  - rewrite lookup_insert_ne by done.
    destruct (board_states r !! sid) as [lid|] eqn:Hlid; [|done].
    cbn [mbind option_bind]. rewrite lookup_app_l; [done|].
    by eapply lists_exist.
Qed.

Lemma history_appended sid sid' r lid l data c hs w :
  sound r →
  board_states r !! sid' = Some lid →
  lists r !! lid = Some l →
  history sid (Relay c (board_states r) (<[lid := l ++ [data]]> (lists r))
                     hs w)
  = if decide (sid' = sid) then history sid r ++ [data] else history sid r.
Proof.
  intros Hr Hlid Hl. unfold history. cbn [board_states lists].
  destruct (decide (sid' = sid)) as [->|Hne].
  - rewrite Hlid. cbn [mbind option_bind].
    rewrite list_lookup_insert_eq by by eapply lists_exist.
    by rewrite Hl.
  - destruct (board_states r !! sid) as [lid'|] eqn:Hlid'; [|done].
    cbn [mbind option_bind]. rewrite list_lookup_insert_ne; [done|].
    intros ->. apply Hne. by eapply lists_apart.
Qed.

Lemma history_no_board sid r :
  sound r → board_connections r !! sid = None → history sid r = [].
Proof.
  intros Hr Hc. unfold history.
  apply not_elem_of_dom in Hc. rewrite (same_boards r Hr) in Hc.
  apply not_elem_of_dom in Hc. by rewrite Hc.
Qed.

Lemma unregister_keeps sid ws r r' :
  unregister sid ws r = Some r' →
  board_states r' = board_states r ∧ lists r' = lists r ∧ wire r' = wire r.
Proof.
  unfold unregister. destruct (board_connections r !! sid); [|done].
  cbn [mbind option_bind]. by destruct (list_remove ws _); intros [= <-].
Qed.

Lemma sent_keeps ws o r r' :
  sent ws o r = Some r' →
  board_states r' = board_states r ∧ lists r' = lists r
  ∧ wire r `prefix_of` wire r'.
Proof.
  unfold sent. destruct (handlers r !! ws) as [f|]; [|done].
  cbn [mbind option_bind].
  destruct f as [sid lid a next|sid|sid data c next]; [|done|].
  - destruct o; intros [= <-]; repeat split; try done; by eexists.
  - destruct o.
    + destruct (board_connections r !! sid); [|done].
      cbn [mbind option_bind]. intros [= <-]. repeat split. by eexists.
    + intros (-> & -> & ->)%unregister_keeps. by repeat split.
    + by intros [= <-].
Qed.

Lemma accumulated_step sid e es acc :
  accumulated sid (e :: es) acc = accumulated sid es (accumulated sid [e] acc).
Proof.
  destruct e as [| sid' ws data| |]; simpl; try done. by case_decide.
Qed.

Lemma step_accumulates e sid r r' :
  sound r → step e r = Some r' →
  history sid r' = accumulated sid [e] (history sid r).
Proof.
  intros Hr. destruct e as [sid' ws|sid' ws data|ws|ws o]; cbn [step].
  - case_decide; [|done].
    destruct (board_connections r !! sid') as [conns|] eqn:Hc.
    + destruct (sound_lookups r sid' Hr) as (conns' & lid & l & ? & Hlid & Hl);
        [apply elem_of_dom; by eexists|].
      rewrite (accept_old _ _ _ _ _ _ Hc Hlid Hl). by intros [= <-].
    + rewrite (accept_new _ _ _ Hc). intros [= <-].
      rewrite history_new_list by done. case_decide; [subst|done].
      by rewrite history_no_board.
  - destruct (handlers r !! ws) as [[| sid''|]|] eqn:Hf; try done.
    case_decide; [subst|done].
    pose proof (frames_board r Hr ws _ Hf) as Hsid. cbn in Hsid.
    destruct (sound_lookups r sid' Hr Hsid)
      as (conns & lid & l & Hc & Hlid & Hl).
    cbn [accumulated]. destruct (is_clear data) eqn:Hd.
    + rewrite (message_clear _ _ _ _ _ Hd Hc). intros [= <-].
      by rewrite history_new_list.
    + rewrite (message_append _ _ _ _ _ _ _ Hd Hc Hlid Hl). intros [= <-].
      by rewrite (history_appended sid sid' r lid l).
  - destruct (handlers r !! ws) as [[| sid'|]|]; try done.
    intros (? & ? & _)%unregister_keeps. by apply history_same.
  - intros (? & ? & _)%sent_keeps. by apply history_same.
Qed.

Lemma run_accumulates es sid r r' :
  sound r → run es r = Some r' →
  history sid r' = accumulated sid es (history sid r).
Proof.
  revert r. induction es as [|e es IH]; intros r Hr.
  - by intros [= <-].
  - rewrite accumulated_step. cbn [run].
    destruct (step e r) as [r1|] eqn:Hstep; [|done].
    cbn [mbind option_bind]. intros Hrun.
    rewrite <-(step_accumulates _ _ _ _ Hr Hstep).
    apply IH; [|done]. by eapply step_sound.
Qed.

(** *** The wire *)

Lemma step_extends_wire e r r' :
  sound r → step e r = Some r' → wire r `prefix_of` wire r'.
Proof.
  intros Hr. destruct e as [sid ws|sid ws data|ws|ws o]; cbn [step].
  - case_decide; [|done].
    destruct (board_connections r !! sid) as [conns|] eqn:Hc.
    + destruct (sound_lookups r sid Hr) as (conns' & lid & l & ? & Hlid & Hl);
        [apply elem_of_dom; by eexists|].
      rewrite (accept_old _ _ _ _ _ _ Hc Hlid Hl). by intros [= <-].
    + rewrite (accept_new _ _ _ Hc). by intros [= <-].
  - destruct (handlers r !! ws) as [[| sid'|]|] eqn:Hf; try done.
    case_decide; [subst|done].
    pose proof (frames_board r Hr ws _ Hf) as Hsid. cbn in Hsid.
    destruct (sound_lookups r sid Hr Hsid)
      as (conns & lid & l & Hc & Hlid & Hl).
    destruct (is_clear data) eqn:Hd.
    + rewrite (message_clear _ _ _ _ _ Hd Hc). by intros [= <-].
    + rewrite (message_append _ _ _ _ _ _ _ Hd Hc Hlid Hl). by intros [= <-].
  - destruct (handlers r !! ws) as [[| sid'|]|]; try done.
    by intros (_ & _ & ->)%unregister_keeps.
  - by intros (_ & _ & ?)%sent_keeps.
Qed.

Lemma run_extends_wire es r r' :
  sound r → run es r = Some r' → wire r `prefix_of` wire r'.
Proof.
  revert r. induction es as [|e es IH]; intros r Hr; cbn [run].
  - by intros [= <-].
  - destruct (step e r) as [r1|] eqn:Hstep; [|done].
    cbn [mbind option_bind]. intros Hrun. etrans; [by eapply step_extends_wire|].
    eapply IH; [|done]. by eapply step_sound.
Qed.

Lemma inbox_wire c r cs s ls hs w :
  inbox c (Relay cs s ls hs (wire r ++ w))
  = inbox c r ++ (snd <$> filter (λ m, m.1 = c) w).
Proof. unfold inbox. cbn [wire]. by rewrite filter_app, fmap_app. Qed.

(** A replay goes to the joiner and to nobody else. *)
Lemma to_one (c ws : websocket) (actions : list action) :
  snd <$> filter (λ m, m.1 = c) ((λ a, (ws, a)) <$> actions)
  = if decide (c = ws) then actions else [].
Proof.
  destruct (decide (c = ws)) as [->|Hne].
  - induction actions as [|a actions IH]; [done|].
    rewrite fmap_cons, filter_cons_True, fmap_cons by done.
    by rewrite IH.
  - induction actions as [|a actions IH]; [done|].
    by rewrite fmap_cons, filter_cons_False by (simpl; congruence).
Qed.

(** A broadcast over connections registered once reaches each of them
    once. *)
Lemma to_each (c : websocket) (data : action) (targets : list websocket) :
  NoDup targets →
  snd <$> filter (λ m, m.1 = c) ((λ c', (c', data)) <$> targets)
  = if decide (c ∈ targets) then [data] else [].
Proof.
  induction targets as [|c' targets IH].
  - intros _. rewrite decide_False; [done|apply not_elem_of_nil].
  - rewrite NoDup_cons. intros [Hc' Hnd]. specialize (IH Hnd).
    rewrite fmap_cons. destruct (decide (c' = c)) as [->|Hne].
    + rewrite filter_cons_True, fmap_cons, IH by done.
      rewrite decide_False by done.
      rewrite decide_True; [done|by left].
    + rewrite filter_cons_False, IH by done.
      destruct (decide (c ∈ targets)) as [Hin|Hin].
      * rewrite decide_True; [done|by right].
      * rewrite decide_False; [done|].
        rewrite not_elem_of_cons. split; [congruence|done].
Qed.

(** *** Participants *)

Lemma list_remove_Some x l k :
  list_remove x l = Some k → NoDup l → NoDup k ∧ ∀ y, y ∈ k → y ∈ l.
Proof.
  revert k. induction l as [|y l IH]; intros k; simpl; [done|].
  case_decide.
  - intros [= <-] [_ Hl]%NoDup_cons. split; [done|]. intros z Hz. by right.
  - destruct (list_remove x l) as [k'|]; simpl; [|done].
    intros [= <-] [Hy Hl]%NoDup_cons.
    destruct (IH k' eq_refl Hl) as [Hk' Hsub]. split.
    + apply NoDup_cons. split; [|done]. intros Hin. by apply Hy, Hsub.
    + intros z [->|Hz]%elem_of_cons; [by left|]. right. by apply Hsub.
Qed.

Lemma participants_same sid r r' :
  board_connections r' = board_connections r →
  participants sid r' = participants sid r.
Proof. unfold participants. by intros ->. Qed.

Lemma participants_rebound sid sid' conns r s ls hs w :
  participants sid (Relay (<[sid' := conns]> (board_connections r)) s ls hs w)
  = if decide (sid' = sid) then conns else participants sid r.
Proof.
  unfold participants. cbn [board_connections].
  case_decide; [subst; by rewrite lookup_insert_eq|].
  by rewrite lookup_insert_ne.
Qed.

Lemma unregistered_participants sid ws r :
  unregistered ws r → ws ∉ participants sid r.
Proof.
  intros Hws. unfold participants.
  destruct (board_connections r !! sid) as [conns|] eqn:Hc; simpl.
  - by apply (Hws sid).
  - apply not_elem_of_nil.
Qed.

Lemma unregister_NoDup sid ws r r' :
  (∀ sid', NoDup (participants sid' r)) →
  unregister sid ws r = Some r' →
  ∀ sid', NoDup (participants sid' r').
Proof.
  intros Hnd. unfold unregister.
  destruct (board_connections r !! sid) as [conns|] eqn:Hc; [|done].
  cbn [mbind option_bind].
  destruct (list_remove ws conns) as [conns'|] eqn:Hrm;
    intros [= <-] sid'; [|apply Hnd].
  rewrite participants_rebound. case_decide; [|apply Hnd].
  eapply list_remove_Some; [done|]. specialize (Hnd sid).
  unfold participants in Hnd. by rewrite Hc in Hnd.
Qed.

Lemma step_NoDup e r r' :
  sound r →
  (∀ sid, NoDup (participants sid r)) →
  step e r = Some r' →
  ∀ sid, NoDup (participants sid r').
Proof.
  intros Hr Hnd. destruct e as [sid ws|sid ws data|ws|ws o]; cbn [step].
  - case_decide as Hg; [|done]. destruct Hg as [_ Hws].
    pose proof (unregistered_participants sid ws r Hws) as Hnew.
    destruct (board_connections r !! sid) as [conns|] eqn:Hc.
    + destruct (sound_lookups r sid Hr) as (conns' & lid & l & ? & Hlid & Hl);
        [apply elem_of_dom; by eexists|].
      rewrite (accept_old _ _ _ _ _ _ Hc Hlid Hl). intros [= <-] sid'.
      rewrite participants_rebound. case_decide; [|apply Hnd].
      specialize (Hnd sid). unfold participants in Hnd, Hnew.
      rewrite Hc in Hnd, Hnew. simpl in Hnd, Hnew.
      apply NoDup_app. split; [done|]. split; [|apply NoDup_singleton].
      intros x Hx ->%list_elem_of_singleton. done.
    + rewrite (accept_new _ _ _ Hc). intros [= <-] sid'.
      rewrite participants_rebound. case_decide; [|apply Hnd].
      apply NoDup_singleton.
  - destruct (handlers r !! ws) as [[| sid'|]|] eqn:Hf; try done.
    case_decide; [subst|done].
    pose proof (frames_board r Hr ws _ Hf) as Hsid. cbn in Hsid.
    destruct (sound_lookups r sid Hr Hsid)
      as (conns & lid & l & Hc & Hlid & Hl).
    destruct (is_clear data) eqn:Hd.
    + rewrite (message_clear _ _ _ _ _ Hd Hc). intros [= <-] sid'. apply Hnd.
    + rewrite (message_append _ _ _ _ _ _ _ Hd Hc Hlid Hl).
      intros [= <-] sid'. apply Hnd.
  - destruct (handlers r !! ws) as [[| sid'|]|]; try done.
    by apply unregister_NoDup.
  - unfold sent. destruct (handlers r !! ws) as [f|]; [|done].
    cbn [mbind option_bind].
    destruct f as [sid lid a next|sid|sid data c next]; [|done|].
    + destruct o; intros [= <-] sid'; apply Hnd.
    + destruct o.
      * destruct (board_connections r !! sid); [|done].
        cbn [mbind option_bind]. intros [= <-] sid'. apply Hnd.
      * by apply unregister_NoDup.
      * intros [= <-] sid'. apply Hnd.
Qed.

Lemma run_NoDup es r r' :
  sound r →
  (∀ sid, NoDup (participants sid r)) →
  run es r = Some r' →
  ∀ sid, NoDup (participants sid r').
Proof.
  revert r. induction es as [|e es IH]; intros r Hr Hnd; cbn [run].
  - by intros [= <-].
  - destruct (step e r) as [r1|] eqn:Hstep; [|done].
    cbn [mbind option_bind]. apply IH.
    + by eapply step_sound.
    + by eapply step_NoDup.
Qed.

Lemma reachable_NoDup es r sid :
  run es empty_relay = Some r → NoDup (participants sid r).
Proof.
  intros Hrun. eapply run_NoDup; [apply empty_sound| |done].
  intros sid'. apply NoDup_nil_2.
Qed.

(** *** A handler that nothing interrupts *)

Lemma replay_from ws sid lid l c s ls hs w next :
  ls !! lid = Some l →
  run (replicate (length (drop next l)) (Sent ws Delivered))
      (Relay c s ls (<[ws := resume_replay sid lid next ls]> hs) w)
  = Some (Relay c s ls (<[ws := Waiting sid]> hs)
                (w ++ ((λ a, (ws, a)) <$> drop next l))).
Proof.
  intros Hl. pose proof (resume_replay_spec sid lid next ls l Hl) as Hres.
  destruct (resume_replay _ _ _ _) as [sid' lid' a n|sid'|]; [| |done].
  - destruct Hres as (-> & -> & -> & Hd). rewrite Hd. cbn [length].
    rewrite (replay_rest ws sid lid l c s ls Hl (length (drop (S next) l))
               a (S next)); [|by rewrite lookup_insert_eq|done].
    by rewrite insert_insert_eq.
  - destruct Hres as [-> ->]. simpl. by rewrite app_nil_r.
Qed.

Lemma broadcast_from ws sid data conns c s ls hs w next :
  c !! sid = Some conns →
  run (replicate (length (filter (λ c, c ≠ ws) (drop next conns)))
                 (Sent ws Delivered))
      (Relay c s ls (<[ws := resume_broadcast sid data ws next conns]> hs) w)
  = Some (Relay c s ls (<[ws := Waiting sid]> hs)
                (w ++ ((λ c, (c, data))
                       <$> filter (λ c, c ≠ ws) (drop next conns)))).
Proof.
  intros Hc. pose proof (resume_broadcast_spec sid data ws next conns) as Hres.
  destruct (resume_broadcast _ _ _ _ _) as [|sid'|sid' data' t n]; [done| |].
  - destruct Hres as [-> ->]. simpl. by rewrite app_nil_r.
  - destruct Hres as (-> & -> & _ & Hd). rewrite Hd. cbn [length].
    rewrite (broadcast_rest ws sid data conns c s ls Hc
               (length (filter (λ c, c ≠ ws) (drop n conns))) t n);
      [|by rewrite lookup_insert_eq|done].
    by rewrite insert_insert_eq.
Qed.

(** *** Joining *)

(** The prologue of a handler: the joiner is registered and the replay
    starts at the first item of the board's list. *)
Lemma accept_spec sid ws r :
  sound r →
  ∃ c s ls lid,
    accept sid ws r
    = Some (Relay c s ls (<[ws := resume_replay sid lid 0 ls]> (handlers r))
                  (wire r))
    ∧ c !! sid = Some (participants sid r ++ [ws])
    ∧ s !! sid = Some lid
    ∧ ls !! lid = Some (history sid r).
Proof.
  intros Hr. destruct (board_connections r !! sid) as [conns|] eqn:Hc.
  - destruct (sound_lookups r sid Hr) as (conns' & lid & l & ? & Hlid & Hl);
      [apply elem_of_dom; by eexists|].
    exists (<[sid := conns ++ [ws]]> (board_connections r)),
      (board_states r), (lists r), lid.
    rewrite (accept_old _ _ _ _ _ _ Hc Hlid Hl). split; [done|].
    unfold participants, history. rewrite Hc, Hlid. simpl.
    by rewrite Hl, lookup_insert_eq.
  - exists (<[sid := [ws]]> (board_connections r)),
      (<[sid := length (lists r)]> (board_states r)), (lists r ++ [[]]),
      (length (lists r)).
    rewrite (accept_new _ _ _ Hc), (history_no_board _ _ Hr Hc).
    unfold participants, resume_replay. rewrite Hc. simpl.
    by rewrite !lookup_insert_eq, list_lookup_middle.
Qed.

(** C2. A participant that connects to a board is registered at once,
    at the end of the board's participant list, before anything is sent.
    The board's history is the list of the actions received for the board
    since its last clear, in the order of their arrival. When the sends of
    the replay complete one after the other with no other handler running
    in between, the joiner is sent exactly that history, in its order, and
    nobody else is sent anything; the handler then waits for the joiner's
    first message, and whatever the relay sends later comes after the
    replay on the wire. *)
Theorem join_replays_history (es : list event) (r : relay) (sid : string)
    (ws : websocket) :
  run es empty_relay = Some r →
  handlers r !! ws = None →
  unregistered ws r →
  ∃ r1 r2,
    step (Accept sid ws) r = Some r1
    ∧ participants sid r1 = participants sid r ++ [ws]
    ∧ wire r1 = wire r
    ∧ history sid r = accumulated sid es []
    ∧ run (replicate (length (history sid r)) (Sent ws Delivered)) r1
      = Some r2
    ∧ wire r2 = wire r ++ ((λ a, (ws, a)) <$> history sid r)
    ∧ inbox ws r2 = inbox ws r ++ history sid r
    ∧ (∀ c, c ≠ ws → inbox c r2 = inbox c r)
    ∧ handlers r2 !! ws = Some (Waiting sid)
    ∧ participants sid r2 = participants sid r ++ [ws]
    ∧ history sid r2 = history sid r
    ∧ (∀ es' r3, run es' r2 = Some r3 → wire r2 `prefix_of` wire r3).
Proof.
  intros Hrun Hnew Hws. pose proof (reachable_sound _ _ Hrun) as Hr.
  pose proof (run_accumulates es sid _ _ empty_sound Hrun) as Hhist.
  change (history sid empty_relay) with (@nil action) in Hhist.
  destruct (accept_spec sid ws r Hr) as (c & s & ls & lid & Hacc & Hc & Hs & Hl).
  assert (step (Accept sid ws) r
          = Some (Relay c s ls
                        (<[ws := resume_replay sid lid 0 ls]> (handlers r))
                        (wire r))) as Hstep
    by (cbn [step]; by rewrite decide_True).
  pose proof (replay_from ws sid lid _ c s ls (handlers r) (wire r) 0 Hl)
    as Hreplay.
  rewrite drop_0 in Hreplay.
  eexists _, _. split; [exact Hstep|].
  split; [unfold participants at 1; cbn [board_connections]; by rewrite Hc|].
  split; [done|]. split; [done|]. split; [exact Hreplay|].
  split; [done|].
  split; [|split; [|split; [|split; [|split]]]].
  - rewrite inbox_wire, to_one. by rewrite decide_True.
  - intros c' Hne. rewrite inbox_wire, to_one.
    by rewrite decide_False, app_nil_r.
  - cbn [handlers]. by rewrite lookup_insert_eq.
  - unfold participants at 1. cbn [board_connections]. by rewrite Hc.
  - unfold history at 1. cbn [board_states lists]. rewrite Hs. simpl.
    by rewrite Hl.
  - intros es' r3. apply run_extends_wire.
    eapply run_sound; [|exact Hreplay]. by eapply step_sound.
Qed.

(** C2, witness: participant 2 joins board "S" after participant 1 has
    drawn two actions. *)
Lemma join_replays_history_witness :
  ∃ r1 r2,
    step (Accept "S" 2) relay_two_strokes = Some r1
    ∧ participants "S" r1 = participants "S" relay_two_strokes ++ [2]
    ∧ wire r1 = wire relay_two_strokes
    ∧ history "S" relay_two_strokes = accumulated "S" two_strokes []
    ∧ run (replicate (length (history "S" relay_two_strokes))
                     (Sent 2 Delivered)) r1
      = Some r2
    ∧ wire r2 = wire relay_two_strokes
                ++ ((λ a, (2, a)) <$> history "S" relay_two_strokes)
    ∧ inbox 2 r2 = inbox 2 relay_two_strokes ++ history "S" relay_two_strokes
    ∧ (∀ c, c ≠ 2 → inbox c r2 = inbox c relay_two_strokes)
    ∧ handlers r2 !! 2 = Some (Waiting "S")
    ∧ participants "S" r2 = participants "S" relay_two_strokes ++ [2]
    ∧ history "S" r2 = history "S" relay_two_strokes
    ∧ (∀ es' r3, run es' r2 = Some r3 → wire r2 `prefix_of` wire r3).
Proof.
  apply (join_replays_history two_strokes relay_two_strokes "S" 2).
  - vm_compute. reflexivity.
  - vm_compute. reflexivity.
  - apply (bool_decide_unpack _). vm_compute. exact I.
Defined.

(** The scenario of the specification, nothing interrupting the
    replay: the joiner is sent the two actions in their order, the
    participant who drew them nothing. *)
Example joiner_served :
  (r ← run [Accept "S" 2; Sent 2 Delivered; Sent 2 Delivered]
           relay_two_strokes;
   Some (inbox 2 r, inbox 1 r, participants "S" r, handlers r !! 2))
  = Some ([stroke_start; stroke_draw], [], [1; 2], Some (Waiting "S")).
Proof. vm_compute. reflexivity. Qed.

(** C2, counterexample. Participant 1 has drawn two
    actions; participant 2 joins and is registered. While the first send of
    the replay is under way, the relay takes a third action of participant
    1: it is appended to the list under replay and sent to participant 2,
    who is in the participant list. The replay then goes on over the list
    as it now is. Every send completes. Participant 2 is sent the live
    action before the history, and once more as the last item of the
    replay. *)
Lemma join_overtaken_by_live_action :
  run two_strokes empty_relay = Some relay_two_strokes
  ∧ history "S" relay_two_strokes = [stroke_start; stroke_draw]
  ∧ inbox 2 relay_two_strokes = []
  ∧ (r ← run join_overtaken relay_two_strokes;
     Some (inbox 2 r, history "S" r, handlers r !! 2, handlers r !! 1))
    = Some ([zoom; stroke_start; stroke_draw; zoom],
            [stroke_start; stroke_draw; zoom],
            Some (Waiting "S"), Some (Waiting "S")).
Proof. repeat split; vm_compute; reflexivity. Qed.

(** *** Relaying *)

(** C3. An action whose type is not "clear" (any other type, or none)
    is appended to the history of its board as soon as the handler of its
    sender has it. The handler then sends it as it is to the connections
    of the board's participant list other than the sender's own, one send
    after the other, in the order of the list. When these sends complete
    with no other handler running in between, every participant of the
    board other than the sender is sent the action once, the sender and
    the connections of other boards nothing, and the handler waits for the
    sender's next message; the participant lists and the other histories
    stay as they are. In every state of the relay, whatever ran before, a
    handler in the middle of a broadcast is sending to a connection other
    than its own. *)
Theorem action_appended_and_broadcast (es : list event) (r : relay)
    (sid : string) (ws : websocket) (data : action) :
  run es empty_relay = Some r →
  handlers r !! ws = Some (Waiting sid) →
  data !! "type" ≠ Some (JString "clear") →
  ∃ r1 r2,
    step (Message sid ws data) r = Some r1
    ∧ history sid r1 = history sid r ++ [data]
    ∧ wire r1 = wire r
    ∧ run (replicate (length (filter (λ c, c ≠ ws) (participants sid r)))
                     (Sent ws Delivered)) r1
      = Some r2
    ∧ wire r2 = wire r ++ ((λ c, (c, data))
                           <$> filter (λ c, c ≠ ws) (participants sid r))
    ∧ (∀ c, c ∈ participants sid r → c ≠ ws →
         inbox c r2 = inbox c r ++ [data])
    ∧ inbox ws r2 = inbox ws r
    ∧ (∀ c, c ∉ participants sid r → inbox c r2 = inbox c r)
    ∧ history sid r2 = history sid r ++ [data]
    ∧ (∀ sid', sid' ≠ sid → history sid' r2 = history sid' r)
    ∧ board_connections r2 = board_connections r
    ∧ handlers r2 !! ws = Some (Waiting sid)
    ∧ (∀ ws' sid' data' c next,
         handlers r !! ws' = Some (Broadcasting sid' data' c next) →
         c ≠ ws').
Proof.
  intros Hrun Hf Hdata. pose proof (reachable_sound _ _ Hrun) as Hr.
  apply BoardFacts.is_clear_false in Hdata.
  pose proof (frames_board r Hr ws _ Hf) as Hsid. cbn in Hsid.
  destruct (sound_lookups r sid Hr Hsid) as (conns & lid & l & Hc & Hlid & Hl).
  assert (participants sid r = conns) as Hp
    by (unfold participants; by rewrite Hc).
  assert (NoDup (filter (λ c, c ≠ ws) conns)) as Hnd
    by (rewrite <-Hp; eapply NoDup_filter, reachable_NoDup; exact Hrun).
  assert (step (Message sid ws data) r
          = Some (Relay (board_connections r) (board_states r)
                        (<[lid := l ++ [data]]> (lists r))
                        (<[ws := resume_broadcast sid data ws 0 conns]>
                           (handlers r))
                        (wire r))) as Hstep.
  { cbn [step]. rewrite Hf, decide_True by done.
    by apply message_append. }
  pose proof (broadcast_from ws sid data conns (board_connections r)
                (board_states r) (<[lid := l ++ [data]]> (lists r))
                (handlers r) (wire r) 0 Hc) as Hcast.
  rewrite drop_0 in Hcast. rewrite Hp.
  assert (∀ sid', history sid'
            (Relay (board_connections r) (board_states r)
                   (<[lid := l ++ [data]]> (lists r))
                   (<[ws := Waiting sid]> (handlers r))
                   (wire r ++ ((λ c, (c, data))
                               <$> filter (λ c, c ≠ ws) conns)))
          = if decide (sid = sid') then history sid' r ++ [data]
            else history sid' r) as Hhist
    by (intros sid'; by apply (history_appended sid' sid r lid l)).
  eexists _, _. split; [exact Hstep|].
  split; [rewrite (history_appended sid sid r lid l) by done;
          by rewrite decide_True|].
  split; [done|]. split; [exact Hcast|]. split; [done|].
  split; [|split; [|split; [|split; [|split; [|split; [done|split]]]]]].
  - intros c' Hin Hne. rewrite inbox_wire, to_each by done.
    rewrite decide_True; [done|]. by apply list_elem_of_filter.
  - rewrite inbox_wire, to_each by done.
    rewrite decide_False; [by rewrite app_nil_r|].
    rewrite list_elem_of_filter. by intros [? _].
  - intros c' Hin. rewrite inbox_wire, to_each by done.
    rewrite decide_False; [by rewrite app_nil_r|].
    rewrite list_elem_of_filter. by intros [_ ?].
  - by rewrite Hhist, decide_True.
  - intros sid' Hne. by rewrite Hhist, decide_False.
  - cbn [handlers]. by rewrite lookup_insert_eq.
  - intros ws' sid' data' c' next. by apply (not_to_self r Hr).
Qed.

(** C3, witness: participant 2 of a board of four sends an action of an
    unknown type. *)
Lemma action_appended_and_broadcast_witness :
  ∃ r1 r2,
    step (Message "S" 2 zoom) relay_four_waiting = Some r1
    ∧ history "S" r1 = history "S" relay_four_waiting ++ [zoom]
    ∧ wire r1 = wire relay_four_waiting
    ∧ run (replicate (length (filter (λ c, c ≠ 2)
                                (participants "S" relay_four_waiting)))
                     (Sent 2 Delivered)) r1
      = Some r2
    ∧ wire r2 = wire relay_four_waiting
                ++ ((λ c, (c, zoom))
                    <$> filter (λ c, c ≠ 2)
                          (participants "S" relay_four_waiting))
    ∧ (∀ c, c ∈ participants "S" relay_four_waiting → c ≠ 2 →
         inbox c r2 = inbox c relay_four_waiting ++ [zoom])
    ∧ inbox 2 r2 = inbox 2 relay_four_waiting
    ∧ (∀ c, c ∉ participants "S" relay_four_waiting →
         inbox c r2 = inbox c relay_four_waiting)
    ∧ history "S" r2 = history "S" relay_four_waiting ++ [zoom]
    ∧ (∀ sid', sid' ≠ "S" →
         history sid' r2 = history sid' relay_four_waiting)
    ∧ board_connections r2 = board_connections relay_four_waiting
    ∧ handlers r2 !! 2 = Some (Waiting "S")
    ∧ (∀ ws' sid' data' c next,
         handlers relay_four_waiting !! ws'
         = Some (Broadcasting sid' data' c next) →
         c ≠ ws').
Proof.
  apply (action_appended_and_broadcast four_waiting relay_four_waiting
           "S" 2 zoom).
  - vm_compute. reflexivity.
  - vm_compute. reflexivity.
  - vm_compute. discriminate.
Defined.

(** The same action, nothing interrupting the broadcast: participants
    1, 3 and 4 are sent it, in that order, participant 2 is not. *)
Example action_relayed :
  (r ← run [Message "S" 2 zoom; Sent 2 Delivered; Sent 2 Delivered;
            Sent 2 Delivered] relay_four_waiting;
   Some (wire r, history "S" r, handlers r !! 2))
  = Some ([(1, zoom); (3, zoom); (4, zoom)], [zoom], Some (Waiting "S")).
Proof. vm_compute. reflexivity. Qed.

(** C3, counterexample. Participants 1, 2, 3 and 4 are
    on board "S" and participant 2 sends an action that is not a clear.
    In the first run every send completes, and participant 1 disconnects
    while the send to participant 3 is under way: the iterator of the
    broadcast is then past the end of the shortened list, and participant
    4, registered all along, is sent nothing. In the second run the first
    send raises [WebSocketDisconnect]: the action is in the history, no
    participant is sent it, and it is the sender that leaves the
    participant list. *)
Lemma broadcast_misses_participant :
  run four_waiting empty_relay = Some relay_four_waiting
  ∧ participants "S" relay_four_waiting = [1; 2; 3; 4]
  ∧ handlers relay_four_waiting !! 2 = Some (Waiting "S")
  ∧ is_clear zoom = false
  ∧ (r ← run broadcast_overtaken relay_four_waiting;
     Some (wire r, inbox 4 r, participants "S" r, history "S" r,
           handlers r !! 2))
    = Some ([(1, zoom); (3, zoom)], [], [2; 3; 4], [zoom],
            Some (Waiting "S"))
  ∧ (r ← run broadcast_cut relay_four_waiting;
     Some (wire r, participants "S" r, history "S" r, handlers r !! 2))
    = Some ([], [1; 3; 4], [zoom], None).
Proof. repeat split; vm_compute; reflexivity. Qed.

(** *** The relay of the module [Board] in this one

    Every run of [Board] is a run of this relay: the one in which each
    handler, once resumed, runs until it next waits for a message, with
    all its sends completing. *)

Lemma history_hub_of sid r : Board.history sid (hub_of r) = history sid r.
Proof.
  unfold Board.history, history, hub_of. cbn [Board.board_states].
  rewrite lookup_fmap. by destruct (board_states r !! sid).
Qed.

Lemma states_new_list r sid :
  sound r →
  (λ lid, default [] ((lists r ++ [[]]) !! lid))
    <$> <[sid := length (lists r)]> (board_states r)
  = <[sid := []]> ((λ lid, default [] (lists r !! lid)) <$> board_states r).
Proof.
  intros Hr. rewrite fmap_insert, list_lookup_middle by done. simpl. f_equal.
  apply map_fmap_ext. intros sid' lid Hlid.
  rewrite lookup_app_l; [done|]. by eapply lists_exist.
Qed.

Lemma states_appended r sid lid l data :
  sound r →
  board_states r !! sid = Some lid →
  (λ lid', default [] (<[lid := l ++ [data]]> (lists r) !! lid'))
    <$> board_states r
  = <[sid := l ++ [data]]>
      ((λ lid', default [] (lists r !! lid')) <$> board_states r).
Proof.
  intros Hr Hlid. apply map_eq. intros sid'.
  rewrite lookup_insert, !lookup_fmap. case_decide; [subst sid'|].
  - rewrite Hlid. simpl.
    by rewrite list_lookup_insert_eq by by eapply lists_exist.
  - destruct (board_states r !! sid') as [lid'|] eqn:Hlid'; [|done]. simpl.
    rewrite list_lookup_insert_ne; [done|]. intros ->.
    by pose proof (lists_apart r Hr _ _ _ Hlid Hlid').
Qed.

Lemma run_app es1 es2 r :
  run (es1 ++ es2) r = r' ← run es1 r; run es2 r'.
Proof.
  revert r. induction es1 as [|e es1 IH]; intros r; [done|]. simpl.
  destruct (step e r) as [r1|]; [|done]. apply IH.
Qed.

Lemma quiet_fresh ws r :
  quiet r → unregistered ws r → handlers r !! ws = None.
Proof.
  intros [Hq1 Hq2] Hws. destruct (handlers r !! ws) as [f|] eqn:Hf; [|done].
  destruct (Hq1 _ _ Hf) as [sid ->]. apply Hq2 in Hf.
  by apply unregistered_participants in Hf.
Qed.

Lemma connect_turns sid ws r :
  sound r → quiet r → unregistered ws r →
  ∃ r',
    run (turns (Board.Connect sid ws) r) r = Some r'
    ∧ hub_of r'
      = Board.Hub (<[sid := participants sid r ++ [ws]]> (board_connections r))
                  (<[sid := history sid r]> (Board.board_states (hub_of r)))
                  (wire r ++ ((λ a, (ws, a)) <$> history sid r))
    ∧ quiet r'.
Proof.
  intros Hr Hq Hws. pose proof (quiet_fresh ws r Hq Hws) as Hnone.
  pose proof (unregistered_participants sid ws r Hws) as Hnew.
  destruct (accept_spec sid ws r Hr) as (c & s & ls & lid & Hacc & Hc & Hs & Hl).
  pose proof (replay_from ws sid lid _ c s ls (handlers r) (wire r) 0 Hl)
    as Hreplay.
  rewrite drop_0 in Hreplay.
  eexists. split.
  { cbn [turns run step]. rewrite decide_True, Hacc by done.
    cbn [mbind option_bind]. exact Hreplay. }
  assert (c = <[sid := participants sid r ++ [ws]]> (board_connections r)
          ∧ (λ lid', default [] (ls !! lid')) <$> s
            = <[sid := history sid r]> (Board.board_states (hub_of r)))
    as [-> Hstates].
  { destruct (board_connections r !! sid) as [conns|] eqn:Hconns.
    - destruct (sound_lookups r sid Hr) as (? & lid' & l & ? & Hlid & Hll);
        [apply elem_of_dom; by eexists|].
      rewrite (accept_old _ _ _ _ _ _ Hconns Hlid Hll) in Hacc.
      injection Hacc as <- <- <- _. unfold participants. rewrite Hconns.
      split; [done|]. cbn [hub_of Board.board_states]. symmetry.
      apply insert_id. rewrite lookup_fmap, Hlid. simpl.
      unfold history. rewrite Hlid. simpl. by rewrite Hll.
    - rewrite (accept_new _ _ _ Hconns) in Hacc.
      injection Hacc as <- <- <- _. unfold participants. rewrite Hconns.
      split; [done|]. rewrite (history_no_board _ _ Hr Hconns).
      by apply states_new_list. }
  split; [unfold hub_of at 1; cbn [board_connections board_states lists wire];
          by rewrite Hstates|].
  destruct Hq as [Hq1 Hq2]. split.
  - intros ws' f. cbn [handlers]. rewrite lookup_insert.
    case_decide; [intros [= <-]; by eexists|apply Hq1].
  - intros ws' sid'. cbn [handlers]. rewrite participants_rebound.
    rewrite lookup_insert. case_decide as Hw; [subst ws'|].
    + split.
      * intros [= ->]. rewrite decide_True by done.
        apply elem_of_app. right. by apply list_elem_of_singleton.
      * case_decide; [by subst|].
        intros Hin. by apply unregistered_participants in Hin.
    + rewrite Hq2. case_decide; [subst sid'|done].
      rewrite elem_of_app, list_elem_of_singleton. split; [by left|].
      by intros [?|?].
Qed.

Lemma receive_turns sid ws data r :
  sound r → quiet r → ws ∈ participants sid r →
  ∃ r',
    run (turns (Board.Receive sid ws data) r) r = Some r'
    ∧ hub_of r'
      = Board.Hub (board_connections r)
                  (<[sid := if is_clear data then []
                            else history sid r ++ [data]]>
                     (Board.board_states (hub_of r)))
                  (wire r ++ ((λ c, (c, data))
                              <$> filter (λ c, c ≠ ws) (participants sid r)))
    ∧ quiet r'.
Proof.
  intros Hr Hq Hin. pose proof Hq as [Hq1 Hq2].
  pose proof (proj2 (Hq2 ws sid) Hin) as Hf.
  pose proof (frames_board r Hr ws _ Hf) as Hsid. cbn in Hsid.
  destruct (sound_lookups r sid Hr Hsid) as (conns & lid & l & Hc & Hlid & Hl).
  assert (participants sid r = conns) as Hp
    by (unfold participants; by rewrite Hc).
  assert (history sid r = l) as Hh
    by (unfold history; rewrite Hlid; simpl; by rewrite Hl).
  assert (<[ws := Waiting sid]> (handlers r) = handlers r) as Hsame
    by by apply insert_id.
  rewrite Hp, Hh. cbn [turns run step]. rewrite Hf, decide_True by done.
  destruct (is_clear data) eqn:Hd.
  - rewrite (message_clear _ _ _ _ _ Hd Hc). cbn [mbind option_bind].
    pose proof (broadcast_from ws sid data conns (board_connections r)
                  (<[sid := length (lists r)]> (board_states r))
                  (lists r ++ [[]]) (handlers r) (wire r) 0 Hc) as Hcast.
    rewrite drop_0 in Hcast. rewrite Hp. eexists. split; [exact Hcast|].
    split; [unfold hub_of at 1;
            cbn [board_connections board_states lists wire];
            by rewrite states_new_list|].
    by rewrite Hsame.
  - rewrite (message_append _ _ _ _ _ _ _ Hd Hc Hlid Hl).
    cbn [mbind option_bind].
    pose proof (broadcast_from ws sid data conns (board_connections r)
                  (board_states r) (<[lid := l ++ [data]]> (lists r))
                  (handlers r) (wire r) 0 Hc) as Hcast.
    rewrite drop_0 in Hcast. rewrite Hp. eexists. split; [exact Hcast|].
    split; [unfold hub_of at 1;
            cbn [board_connections board_states lists wire];
            by rewrite (states_appended r sid lid l data)|].
    by rewrite Hsame.
Qed.

Lemma disconnect_turns sid ws r :
  sound r → quiet r → NoDup (participants sid r) → ws ∈ participants sid r →
  ∃ r',
    run (turns (Board.Disconnect sid ws) r) r = Some r'
    ∧ hub_of r'
      = Board.Hub (<[sid := filter (λ c, c ≠ ws) (participants sid r)]>
                     (board_connections r))
                  (Board.board_states (hub_of r)) (wire r)
    ∧ quiet r'.
Proof.
  intros Hr Hq Hnd Hin. pose proof Hq as [Hq1 Hq2].
  pose proof (proj2 (Hq2 ws sid) Hin) as Hf.
  pose proof (frames_board r Hr ws _ Hf) as Hsid. cbn in Hsid.
  destruct (sound_lookups r sid Hr Hsid) as (conns & lid & l & Hc & Hlid & Hl).
  assert (participants sid r = conns) as Hp
    by (unfold participants; by rewrite Hc).
  rewrite Hp in Hnd, Hin. rewrite Hp.
  cbn [turns run step]. rewrite Hf. unfold unregister. rewrite Hc.
  cbn [mbind option_bind].
  rewrite (BoardFacts.list_remove_NoDup _ _ Hnd Hin).
  eexists. split; [done|]. split; [done|]. split.
  - intros ws' f. cbn [handlers]. intros [_ Hf']%lookup_delete_Some.
    by eapply Hq1.
  - intros ws' sid'. cbn [handlers]. rewrite participants_rebound.
    rewrite lookup_delete_Some, Hq2. case_decide; [subst sid'|].
    + rewrite list_elem_of_filter, Hp. split; intros [? ?]; by split.
    + split; [by intros [_ ?]|]. intros Hin'. split; [|done]. intros ->.
      apply Hq2 in Hin'. congruence.
Qed.

(** One transition of [Board] is the run of one handler. *)
Lemma step_turns e r h :
  sound r → quiet r → Board.consistent (hub_of r) →
  Board.step e (hub_of r) = Some h →
  ∃ r', run (turns e r) r = Some r' ∧ hub_of r' = h ∧ quiet r'.
Proof.
  intros Hr Hq Hh Hstep. pose proof (BoardFacts.step_guard _ _ _ Hstep) as Hg.
  destruct e as [sid ws|sid ws data|sid ws].
  - rewrite BoardFacts.step_connect in Hstep by done.
    destruct (connect_turns sid ws r Hr Hq Hg) as (r' & Hrun & Hhub & Hq').
    exists r'. split; [done|]. split; [|done]. rewrite Hhub.
    rewrite history_hub_of in Hstep. by simplify_eq.
  - rewrite BoardFacts.step_receive in Hstep by done.
    destruct (receive_turns sid ws data r Hr Hq Hg) as (r' & Hrun & Hhub & Hq').
    exists r'. split; [done|]. split; [|done]. rewrite Hhub.
    rewrite history_hub_of in Hstep. by simplify_eq.
  - rewrite BoardFacts.step_disconnect in Hstep by done.
    destruct (disconnect_turns sid ws r Hr Hq) as (r' & Hrun & Hhub & Hq');
      [by apply (BoardFacts.participants_NoDup sid (hub_of r))|done|].
    exists r'. split; [done|]. split; [|done]. rewrite Hhub.
    by simplify_eq.
Qed.

Lemma run_turns es r h :
  sound r → quiet r → Board.consistent (hub_of r) →
  Board.run es (hub_of r) = Some h →
  ∃ es' r', run es' r = Some r' ∧ hub_of r' = h ∧ quiet r'.
Proof.
  revert r. induction es as [|e es IH]; intros r Hr Hq Hh; simpl.
  - intros [= <-]. by exists [], r.
  - destruct (Board.step e (hub_of r)) as [h1|] eqn:Hstep; [|done]. simpl.
    destruct (step_turns e r h1 Hr Hq Hh Hstep) as (r1 & Hrun1 & <- & Hq1).
    intros Hrun.
    destruct (IH r1) as (es' & r' & Hrun' & Hhub & Hq'); try done.
    + by eapply run_sound.
    + by eapply BoardFacts.step_consistent.
    + exists (turns e r ++ es'), r'. rewrite run_app, Hrun1. by split.
Qed.

(** X14. Every state that the relay reaches when its handlers run one
    at a time, each from one [receive_json] to the next with all its
    sends completing, is a state that the relay reaches await by await:
    the two dictionaries and the wire are the same, every handler is
    waiting for a message, and the participants of a board are the
    connections whose handlers wait on it. *)
Theorem board_run_is_relay_run (es : list Board.event) (h : Board.hub) :
  Board.run es Board.empty_hub = Some h →
  ∃ es' r, run es' empty_relay = Some r ∧ hub_of r = h ∧ quiet r.
Proof.
  apply (run_turns es empty_relay).
  - apply empty_sound.
  - split.
    + intros ws f. change (handlers empty_relay) with (∅ : gmap websocket frame).
      by rewrite lookup_empty.
    + intros ws sid.
      change (participants sid empty_relay) with (@nil websocket).
      change (handlers empty_relay) with (∅ : gmap websocket frame).
      by rewrite lookup_empty, elem_of_nil.
  - apply BoardFacts.empty_consistent.
Qed.

(** X14, witness: the busy boards "S" and "T". *)
Lemma board_run_is_relay_run_witness :
  ∃ es' r, run es' empty_relay = Some r ∧ hub_of r = hub_busy ∧ quiet r.
Proof.
  apply (board_run_is_relay_run busy hub_busy). vm_compute. reflexivity.
Defined.

End RelayFacts.
